(** * gonymizer: the anonymization processors (processors.go)

    A shallow embedding of the consistency-preserving processors of
    [processors.go] and of the helpers they call, followed by the
    properties of the specification that concern them.

    Go strings are byte sequences: they are modelled by [string], whose
    characters ([ascii]) are exactly the 8-bit bytes.  The package-level
    maps are [gmap]s held in an explicit program state, together with the
    two sources of randomness the code draws from.  A Go run-time panic is
    an outcome of its own, so that "returns" is a statement that can be
    proved or refuted. *)

From Stdlib Require Import ZArith NArith Lia Ascii String.
From stdpp Require Import gmap strings list fin_maps.

Local Open Scope Z_scope.

(** ** Outcomes and the program state *)

Inductive panic : Type :=
| PanicIntnArg        (* rand.Intn: invalid argument *)
| PanicIndexRange     (* index out of range *)
| PanicSliceBounds    (* slice bounds out of range *)
| PanicNilMap.        (* assignment to entry in nil map *)

Inductive Outcome (A : Type) : Type :=
| Ok (a : A)
| Panicked (p : panic).
Arguments Ok {A} a.
Arguments Panicked {A} p.

(** A non-nil Go [error] is represented by its message; the [error]
    result of a function is an [option error], [None] being [nil]. *)
Inductive error : Type := errorString (msg : string).

(** [uuid.UUID] is [[16]byte]. *)
Abbreviation UUID := (list N).

(** The global source of [math/rand]: the sequence of raw values it will
    produce and the number of values consumed so far.  The generator is
    not modelled: any sequence of results of [rand.Intn] is produced by
    some [draws]. *)
Record Rand : Type := mkRand { draws : nat -> Z; cursor : nat }.

(** The entropy behind [uuid.NewRandom]: its [n]-th call either returns
    a fresh UUID or fails with an error. *)
Record Rander : Type := mkRander { reads : nat -> UUID + error; rcursor : nat }.

Record State : Type := mkState {
  AlphaNumericMap : gmap string (gmap string string);
  UUIDMap : gmap UUID UUID;
  IBANMap : gmap string string;
  rng : Rand;
  rander : Rander
}.

Definition M (A : Type) : Type := State -> Outcome (A * State).

Definition ret {A} (a : A) : M A := fun st => Ok (a, st).

Definition bind {A B} (m : M A) (k : A -> M B) : M B :=
  fun st =>
    match m st with
    | Ok (a, st') => k a st'
    | Panicked p => Panicked p
    end.

Notation "'let*' x ':=' m 'in' k" := (bind m (fun x => k))
  (at level 10, x name, m at level 100, k at level 200).

Definition with_rng (st : State) (r : Rand) : State :=
  mkState (AlphaNumericMap st) (UUIDMap st) (IBANMap st) r (rander st).

Definition with_rander (st : State) (r : Rander) : State :=
  mkState (AlphaNumericMap st) (UUIDMap st) (IBANMap st) (rng st) r.

Definition with_AlphaNumericMap (st : State) (m : gmap string (gmap string string)) : State :=
  mkState m (UUIDMap st) (IBANMap st) (rng st) (rander st).

Definition with_UUIDMap (st : State) (m : gmap UUID UUID) : State :=
  mkState (AlphaNumericMap st) m (IBANMap st) (rng st) (rander st).

Definition with_IBANMap (st : State) (m : gmap string string) : State :=
  mkState (AlphaNumericMap st) (UUIDMap st) m (rng st) (rander st).

(** The three consistency maps of a state. *)
Definition same_maps (st st' : State) : Prop :=
  AlphaNumericMap st' = AlphaNumericMap st /\
  UUIDMap st' = UUIDMap st /\
  IBANMap st' = IBANMap st.

(** ** math/rand *)

(** [rand.Intn(n)]: panics when [n <= 0], otherwise a value of [[0,n)]. *)
Definition Intn (n : Z) : M Z :=
  fun st =>
    if n <=? 0 then Panicked PanicIntnArg
    else
      let r := rng st in
      Ok (draws r (cursor r) mod n, with_rng st (mkRand (draws r) (S (cursor r)))).

(** ** Bytes and strings *)

Definition byte_val (c : ascii) : N := N_of_ascii c.

(** [a <= c && c <= b] on bytes. *)
Definition byte_between (a b c : ascii) : bool :=
  ((byte_val a <=? byte_val c) && (byte_val c <=? byte_val b))%N.

Definition isLower (c : ascii) : bool := byte_between "a" "z" c.
Definition isUpper (c : ascii) : bool := byte_between "A" "Z" c.
Definition isDigit (c : ascii) : bool := byte_between "0" "9" c.

(** [s[i]]: panics outside [[0, len(s))]. *)
Definition index (s : string) (i : Z) : M ascii :=
  fun st =>
    if i <? 0 then Panicked PanicIndexRange
    else match String.get (Z.to_nat i) s with
         | Some c => Ok (c, st)
         | None => Panicked PanicIndexRange
         end.

(** [s[lo:hi]] with [lo] and [hi] already checked. *)
Definition slice (s : string) (lo hi : nat) : string :=
  String.substring lo (hi - lo) s.

(** [s[:n]] and [s[n:]]: both panic when [n > len(s)]. *)
Definition slice_to (s : string) (n : nat) : M string :=
  fun st =>
    if (n <=? String.length s)%nat then Ok (slice s 0 n, st)
    else Panicked PanicSliceBounds.

Definition slice_from (s : string) (n : nat) : M string :=
  fun st =>
    if (n <=? String.length s)%nat then Ok (slice s n (String.length s), st)
    else Panicked PanicSliceBounds.

(** ** The character sets and the random pickers *)

Definition lowercaseSet : string := "abcdefghijklmnopqrstuvwxyz".
Definition uppercaseSet : string := "ABCDEFGHIJKLMNOPQRSTUVWXYZ".
Definition numericSet : string := "0123456789".

Definition lowercaseSetLen : Z := 26.
Definition uppercaseSetLen : Z := 26.
Definition numericSetLen : Z := 10.

Definition randomLowercase : M string :=
  let* i := Intn lowercaseSetLen in
  let* c := index lowercaseSet i in
  ret (String c "").

Definition randomUppercase : M string :=
  let* i := Intn uppercaseSetLen in
  let* c := index uppercaseSet i in
  ret (String c "").

Definition randomNumeric : M string :=
  let* i := Intn numericSetLen in
  let* c := index numericSet i in
  ret (String c "").

(** ** scrambleString *)

(** The body of the loop of [scrambleString]: what is written to the
    builder for the byte [c]. *)
Definition scrambleByte (c : ascii) : M string :=
  if isLower c then randomLowercase
  else if isUpper c then randomUppercase
  else if isDigit c then randomNumeric
  else ret (String c "").

(** The loop over the bytes still to be read, [b] being the builder. *)
Fixpoint scrambleLoop (rest : string) (b : string) : M string :=
  match rest with
  | EmptyString => ret b
  | String c rest' =>
      let* w := scrambleByte c in
      scrambleLoop rest' (b +:+ w)
  end.

Definition scrambleString (input : string) : M string :=
  scrambleLoop input "".

(** ** The packages the processors import *)

(** [github.com/google/uuid] is not part of the repository: its parser
    and its printer are parameters of the development. *)
Class UUIDPackage : Type := {
  uuid_Parse : string -> UUID * option error;
  uuid_String : UUID -> string
}.

(** [uuid.NewRandom()]. *)
Definition uuid_NewRandom : M (UUID * option error) :=
  fun st =>
    let r := rander st in
    let st' := with_rander st (mkRander (reads r) (S (rcursor r))) in
    match reads r (rcursor r) with
    | inl u => Ok ((u, None), st')
    | inr e => Ok ((repeat 0%N 16, Some e), st')
    end.

(** The fields of [ColumnMapper] that the processors read (the type is
    declared elsewhere in the package); the pointer a processor receives
    is not nil. *)
Record ColumnMapper : Type := mkColumnMapper {
  ParentSchema : string;
  ParentTable : string;
  ParentColumn : string
}.

(** ** Access to the package-level maps *)

Definition gets {A} (f : State -> A) : M A := fun st => Ok (f st, st).

Definition modify (f : State -> State) : M unit := fun st => Ok (tt, f st).

(** Reading a missing key of a Go map yields the zero value: the nil map
    (of length 0) for the outer map, the empty string for the inner one. *)
Definition inner_of (m : gmap string (gmap string string)) (k : string) : gmap string string :=
  default ∅ (m !! k).

Definition value_of (m : gmap string string) (k : string) : string :=
  default "" (m !! k).

(** [AlphaNumericMap[k1][k2] = v]: panics when [AlphaNumericMap[k1]] is
    the nil map. *)
Definition store_alnum (k1 k2 v : string) : M unit :=
  fun st =>
    match AlphaNumericMap st !! k1 with
    | Some inner =>
        Ok (tt, with_AlphaNumericMap st (<[k1 := <[k2 := v]> inner]> (AlphaNumericMap st)))
    | None => Panicked PanicNilMap
    end.

(** ** The consistency-preserving processors *)

Definition nonempty (s : string) : bool :=
  if decide (s = "") then false else true.

(** [fmt.Sprintf("%s.%s.%s", ...)] of the parent triple. *)
Definition parentKeyOf (cmap : ColumnMapper) : string :=
  ParentSchema cmap +:+ "." +:+ ParentTable cmap +:+ "." +:+ ParentColumn cmap.

Definition ProcessorAlphaNumericScrambler (cmap : ColumnMapper) (input : string)
  : M (string * option error) :=
  let parentKey := parentKeyOf cmap in
  if nonempty (ParentSchema cmap) && nonempty (ParentTable cmap) && nonempty (ParentColumn cmap)
  then
    let* n := gets (fun st => size (inner_of (AlphaNumericMap st) parentKey)) in
    let* _ := (if (n <? 1)%nat
               then modify (fun st => with_AlphaNumericMap st (<[parentKey := ∅]> (AlphaNumericMap st)))
               else ret tt) in
    let* cur := gets (fun st => value_of (inner_of (AlphaNumericMap st) parentKey) input) in
    if (String.length cur <? 1)%nat then
      let* scramble := scrambleString input in
      let* _ := store_alnum parentKey input scramble in
      ret (scramble, None)
    else
      ret (cur, None)
  else
    let* scramble := scrambleString input in
    ret (scramble, None).

Definition ProcessorIBANScrambler (_ : ColumnMapper) (input : string)
  : M (string * option error) :=
  let* found := gets (fun st => IBANMap st !! input) in
  match found with
  | Some annonymizedIBAN => ret (annonymizedIBAN, None)
  | None =>
      let* head := slice_to input 2 in
      let* tail := slice_from input 2 in
      let* scrambled := scrambleString tail in
      let newAnnonymizedIBAN := head +:+ scrambled in
      let* _ := modify (fun st => with_IBANMap st (<[input := newAnnonymizedIBAN]> (IBANMap st))) in
      ret (newAnnonymizedIBAN, None)
  end.

Section UUIDProcessor.
Context `{UUIDPackage}.

Definition randomizeUUID (input : UUID) : M (string * option error) :=
  let* found := gets (fun st => UUIDMap st !! input) in
  match found with
  | None =>
      let* r := uuid_NewRandom in
      match r with
      | (_, Some err) => ret ("", Some err)
      | (finalUUID, None) =>
          let* _ := modify (fun st => with_UUIDMap st (<[input := finalUUID]> (UUIDMap st))) in
          ret (uuid_String finalUUID, None)
      end
  | Some finalUUID => ret (uuid_String finalUUID, None)
  end.

Definition ProcessorRandomUUID (_ : ColumnMapper) (input : string)
  : M (string * option error) :=
  match uuid_Parse input with
  | (_, Some err) => ret ("", Some err)
  | (inputID, None) => randomizeUUID inputID
  end.

End UUIDProcessor.

(** ** The standard library's [time] package

    [time.Date], [Time.Day] and [Time.Format] as the standard library
    computes them.  Only dates are needed (the clock fields are all zero
    and the location is UTC): a [time.Time] is the number of days since
    January 1 of year 1 in the proleptic Gregorian calendar. *)

Definition Time : Type := Z.

Definition isLeap (year : Z) : bool :=
  (year mod 4 =? 0) && (negb (year mod 100 =? 0) || (year mod 400 =? 0)).

(** [daysBefore[m]]: days of a non-leap year before month [m+1]. *)
Definition daysBefore (m : Z) : Z :=
  nth (Z.to_nat m) [0; 31; 59; 90; 120; 151; 181; 212; 243; 273; 304; 334; 365] 0.

Definition daysSinceEpoch (year : Z) : Z :=
  let y := year - 1 in
  365 * y + y / 4 - y / 100 + y / 400.

(** [time.Date(year, month, day, 0, 0, 0, 0, time.UTC)]: month and day may
    be outside their usual ranges and are normalized. *)
Definition time_Date (year month day : Z) : Time :=
  let m := month - 1 in
  let year := year + m / 12 in
  let m := m mod 12 in
  let month := m + 1 in
  let d := daysSinceEpoch year + daysBefore (month - 1) in
  let d := if isLeap year && (3 <=? month) then d + 1 else d in
  d + (day - 1).

(** The year within its 400-year cycle, and the day within that year, of
    day [d] of the cycle. *)
Definition cycleYear (d : Z) : Z * Z :=
  let n := d / 36524 in
  let n := n - n / 4 in
  let y := 100 * n in
  let d := d - 36524 * n in
  let n := d / 1461 in
  let y := y + 4 * n in
  let d := d - 1461 * n in
  let n := d / 365 in
  let n := n - n / 4 in
  let y := y + n in
  let d := d - 365 * n in
  (y, d).

(** The month and the day of month of day [yday] (from 0) of a year. *)
Definition monthDay (leap : bool) (yday : Z) : Z * Z :=
  if leap && (yday =? 31 + 29 - 1) then (2, 29)
  else
    let day := if leap && (31 + 29 - 1 <? yday) then yday - 1 else yday in
    let month := day / 31 in
    let e := daysBefore (month + 1) in
    if e <=? day then (month + 2, day - e + 1)
    else (month + 1, day - daysBefore month + 1).

(** The year, month and day of month on which a [Time] falls. *)
Definition absDate (t : Time) : Z * Z * Z :=
  let n := t / 146097 in
  let '(y, yday) := cycleYear (t - 146097 * n) in
  let year := 400 * n + y + 1 in
  let '(month, day) := monthDay (isLeap year) yday in
  (year, month, day).

Definition Time_Year (t : Time) : Z := fst (fst (absDate t)).
Definition Time_Month (t : Time) : Z := snd (fst (absDate t)).
Definition Time_Day (t : Time) : Z := snd (absDate t).

(** The decimal digit [0 <= d < 10] as a byte. *)
Definition digit (d : Z) : ascii := ascii_of_N (48 + Z.to_N d).

(** The decimal digits of [u >= 0], most significant first. *)
Fixpoint utoa (fuel : nat) (u : Z) (acc : string) : string :=
  match fuel with
  | O => acc
  | S fuel' =>
      let acc' := String (digit (u mod 10)) acc in
      if u <? 10 then acc' else utoa fuel' (u / 10) acc'
  end.

Fixpoint zeros (n : nat) : string :=
  match n with
  | O => ""
  | S n' => String "0" (zeros n')
  end.

(** [appendInt]: the decimal form of [x], zero-padded to [width]. *)
Definition appendInt (x : Z) (width : nat) : string :=
  let ds := utoa 20 (Z.abs x) "" in
  (if x <? 0 then "-" else "") +:+ zeros (width - String.length ds) +:+ ds.

(** [t.Format("2006-01-02")]. *)
Definition Time_Format (t : Time) : string :=
  appendInt (Time_Year t) 4 +:+ "-" +:+ appendInt (Time_Month t) 2 +:+ "-"
    +:+ appendInt (Time_Day t) 2.

(** ** The date randomizer *)

Definition date (year month day : Z) : Time := time_Date year month day.

Definition randomizeDate (year : Z) : M string :=
  let* r := Intn 12 in
  let randMonth := r + 1 in
  let monthMaxDay := Time_Day (date year randMonth 0) in
  let* r := Intn monthMaxDay in
  let randDay := r + 1 in
  let fullDateTime := Time_Format (date year randMonth randDay) in
  ret fullDateTime.

(** ** Invocations and runs *)

Inductive Call : Type :=
| CallAlphaNumericScrambler (cmap : ColumnMapper) (input : string)
| CallIBANScrambler (cmap : ColumnMapper) (input : string)
| CallRandomUUID (cmap : ColumnMapper) (input : string).

Definition invoke `{UUIDPackage} (c : Call) : M (string * option error) :=
  match c with
  | CallAlphaNumericScrambler cmap input => ProcessorAlphaNumericScrambler cmap input
  | CallIBANScrambler cmap input => ProcessorIBANScrambler cmap input
  | CallRandomUUID cmap input => ProcessorRandomUUID cmap input
  end.

(** One step of a run: an invocation of one of the three processors above
    that returns, or anything else that happens in between (the other
    processors of the catalog, which never mention the three maps and only
    consume randomness). *)
Inductive step `{UUIDPackage} : State -> State -> Prop :=
| step_invoke c st r st' :
    invoke c st = Ok (r, st') -> step st st'
| step_other st r e :
    step st (with_rander (with_rng st r) e).

(** The state at process start: the three maps are empty. *)
Definition initial (r : Rand) (e : Rander) : State := mkState ∅ ∅ ∅ r e.

Definition reachable `{UUIDPackage} (st : State) : Prop :=
  exists r e, rtc step (initial r e) st.

(** Every binding of the three maps of [st] is a binding of [st']. *)
Definition bindings_kept (st st' : State) : Prop :=
  (forall k1 inner k2 v,
      AlphaNumericMap st !! k1 = Some inner -> inner !! k2 = Some v ->
      exists inner', AlphaNumericMap st' !! k1 = Some inner' /\ inner' !! k2 = Some v) /\
  (forall k v, UUIDMap st !! k = Some v -> UUIDMap st' !! k = Some v) /\
  (forall k v, IBANMap st !! k = Some v -> IBANMap st' !! k = Some v).

(** ** Vocabulary of the properties *)

(** [o] is of the character class of [c]; a byte of no class is itself. *)
Definition same_class (c o : ascii) : Prop :=
  if isLower c then isLower o = true
  else if isUpper c then isUpper o = true
  else if isDigit c then isDigit o = true
  else o = c.

(** [out] is what [scrambleString s] returns for some random draws. *)
Definition scramble_of (s out : string) : Prop :=
  exists st st', scrambleString s st = Ok (out, st').

Definition all_nonempty (cmap : ColumnMapper) : Prop :=
  ParentSchema cmap <> "" /\ ParentTable cmap <> "" /\ ParentColumn cmap <> "".

Definition parent_triple (cmap : ColumnMapper) : string * string * string :=
  (ParentSchema cmap, ParentTable cmap, ParentColumn cmap).

(** The byte ['.'] does not occur in [s]. *)
Fixpoint dot_free (s : string) : bool :=
  match s with
  | EmptyString => true
  | String c s' => (if decide (c = "."%char) then false else true) && dot_free s'
  end.

(** The number of days of month [month], in a leap year or not. *)
Definition monthLen (leap : bool) (month : Z) : Z :=
  if month =? 2 then (if leap then 29 else 28)
  else if (month =? 4) || (month =? 6) || (month =? 9) || (month =? 11) then 30
  else 31.

(** The number of days of month [month] of [year], and of [year]. *)
Definition daysIn (year month : Z) : Z := monthLen (isLeap year) month.

Definition yearLen (year : Z) : Z := if isLeap year then 366 else 365.

Definition valid_date (year month day : Z) : bool :=
  (1 <=? month) && (month <=? 12) && (1 <=? day) && (day <=? daysIn year month).

(** Reading a date back from its [YYYY-MM-DD] form: exactly four, two and
    two decimal digits, and a day that exists in the calendar. *)
Definition digit_val (c : ascii) : option Z :=
  if isDigit c then Some (Z.of_N (byte_val c) - 48) else None.

Fixpoint number (s : string) (acc : Z) : option Z :=
  match s with
  | EmptyString => Some acc
  | String c s' =>
      match digit_val c with
      | Some d => number s' (10 * acc + d)
      | None => None
      end
  end.

Definition parseDate (s : string) : option (Z * Z * Z) :=
  if negb (String.length s =? 10)%nat then None
  else if negb (String.eqb (slice s 4 5) "-" && String.eqb (slice s 7 8) "-") then None
  else
    match number (slice s 0 4) 0, number (slice s 5 7) 0, number (slice s 8 10) 0 with
    | Some y, Some m, Some d => if valid_date y m d then Some (y, m, d) else None
    | _, _, _ => None
    end.

(** [t] is [s] with every byte replaced by one of its class. *)
Inductive scrambled : string -> string -> Prop :=
| scrambled_nil : scrambled "" ""
| scrambled_cons c o s t :
    same_class c o -> scrambled s t -> scrambled (String c s) (String o t).

(** Only the state of [math/rand] differs between [st] and [st']. *)
Definition only_rng (st st' : State) : Prop :=
  exists r, st' = with_rng st r.

(** The state in which the alphanumeric scrambler looks its input up:
    the inner map of [key] has been created if it was missing or empty. *)
Definition alnum_prepared (st : State) (key : string) : State :=
  if (size (inner_of (AlphaNumericMap st) key) <? 1)%nat
  then with_AlphaNumericMap st (<[key:=∅]> (AlphaNumericMap st)) else st.

(** The state after one call of [uuid.NewRandom]. *)
Definition rander_next (st : State) : State :=
  with_rander st (mkRander (reads (rander st)) (S (rcursor (rander st)))).

(** What holds of the maps throughout a run: every stored value is a
    scramble of its key (alphanumeric map), or the first two bytes of its
    key followed by a scramble of the rest (IBAN map). *)
Definition wf (st : State) : Prop :=
  (forall k inner v o,
      AlphaNumericMap st !! k = Some inner -> inner !! v = Some o -> scramble_of v o) /\
  (forall k v,
      IBANMap st !! k = Some v ->
      (2 <= String.length k)%nat /\
      exists out, scramble_of (slice k 2 (String.length k)) out /\ v = slice k 0 2 +:+ out).

(** ** An instance of the UUID package

    The parser and the printer of [github.com/google/uuid], for the
    examples: the forms [xxxxxxxx-xxxx-xxxx-xxxx-xxxxxxxxxxxx], the same
    behind [urn:uuid:] or within braces, and thirty-two bare hexadecimal
    digits.  The UUID returned together with an error is the nil UUID
    (the callers do not read it). *)
Module GoogleUUID.

Definition Nil : UUID := repeat 0%N 16.

Definition xvalue (c : ascii) : option N :=
  if isDigit c then Some (byte_val c - 48)%N
  else if byte_between "a" "f" c then Some (byte_val c - 87)%N
  else if byte_between "A" "F" c then Some (byte_val c - 55)%N
  else None.

Definition xtob (x1 x2 : ascii) : option N :=
  match xvalue x1, xvalue x2 with
  | Some b1, Some b2 => Some (N.lor (N.shiftl b1 4) b2)
  | _, _ => None
  end.

Definition hexAt (s : string) (x : nat) : option N :=
  match String.get x s, String.get (S x) s with
  | Some x1, Some x2 => xtob x1 x2
  | _, _ => None
  end.

Fixpoint hexAll (s : string) (xs : list nat) : option (list N) :=
  match xs with
  | [] => Some []
  | x :: xs' =>
      match hexAt s x, hexAll s xs' with
      | Some b, Some bs => Some (b :: bs)
      | _, _ => None
      end
  end.

Definition lower (c : ascii) : ascii :=
  if isUpper c then ascii_of_N (byte_val c + 32) else c.

Fixpoint lowerAll (s : string) : string :=
  match s with
  | EmptyString => EmptyString
  | String c s' => String (lower c) (lowerAll s')
  end.

Definition EqualFold (s t : string) : bool := String.eqb (lowerAll s) (lowerAll t).

Definition dashed (s : string) : UUID * option error :=
  if negb (String.eqb (slice s 8 9) "-" && String.eqb (slice s 13 14) "-"
           && String.eqb (slice s 18 19) "-" && String.eqb (slice s 23 24) "-")
  then (Nil, Some (errorString "invalid UUID format"))
  else
    match hexAll s [0; 2; 4; 6; 9; 11; 14; 16; 19; 21; 24; 26; 28; 30; 32; 34]%nat with
    | Some u => (u, None)
    | None => (Nil, Some (errorString "invalid UUID format"))
    end.

Definition Parse (s : string) : UUID * option error :=
  let n := String.length s in
  if (n =? 36)%nat then dashed s
  else if (n =? 36 + 9)%nat then
    if EqualFold (slice s 0 9) "urn:uuid:" then dashed (slice s 9 n)
    else (Nil, Some (errorString "invalid urn prefix"))
  else if (n =? 36 + 2)%nat then dashed (slice s 1 n)
  else if (n =? 32)%nat then
    match hexAll s [0; 2; 4; 6; 8; 10; 12; 14; 16; 18; 20; 22; 24; 26; 28; 30]%nat with
    | Some u => (u, None)
    | None => (Nil, Some (errorString "invalid UUID format"))
    end
  else (Nil, Some (errorString "invalid UUID length")).

Definition hexdigit (n : N) : ascii :=
  if (n <? 10)%N then ascii_of_N (48 + n) else ascii_of_N (87 + n).

Fixpoint encodeHex (bs : list N) : string :=
  match bs with
  | [] => ""
  | b :: bs' => String (hexdigit (N.shiftr b 4)) (String (hexdigit (N.land b 15)) (encodeHex bs'))
  end.

Definition part (u : UUID) (lo hi : nat) : list N := take (hi - lo) (drop lo u).

Definition String (u : UUID) : string :=
  encodeHex (part u 0 4) +:+ "-" +:+ encodeHex (part u 4 6) +:+ "-"
    +:+ encodeHex (part u 6 8) +:+ "-" +:+ encodeHex (part u 8 10) +:+ "-"
    +:+ encodeHex (part u 10 16).

End GoogleUUID.

Definition google_uuid : UUIDPackage :=
  {| uuid_Parse := GoogleUUID.Parse; uuid_String := GoogleUUID.String |}.


(** ** The calendar, by cases *)

(** The integers [a, a+1, ..., a+n-1]. *)
Definition range (a : Z) (n : nat) : list Z := map (fun i => a + Z.of_nat i) (seq 0 n).

(** The day of the year (from 0) that [time.Date] computes for day [d] of
    month [m], [1 <= m <= 12]. *)
Definition ydOf (leap : bool) (m d : Z) : Z :=
  daysBefore (m - 1) + (if leap && (3 <=? m) then 1 else 0) + (d - 1).

(** The length of the month before [m] ([m = 1]: December). *)
Definition prevLen (leap : bool) (m : Z) : Z :=
  if m =? 1 then 31 else monthLen leap (m - 1).

(** What is checked, by computation, of day [d] of month [m]: if [d] is
    at most the length of the month before [m], it is a day of the year,
    and [monthDay] puts it on a day that exists. *)
Definition day_checked (leap : bool) (m d : Z) : bool :=
  (prevLen leap m <? d) ||
  (let yd := ydOf leap m d in
   (0 <=? yd) && (yd <? (if leap then 366 else 365)) &&
   (let '(Mo, D) := monthDay leap yd in
    (1 <=? Mo) && (Mo <=? 12) && (1 <=? D) && (D <=? monthLen leap Mo))).

(** And of day 0 of a month [m] after January: it is the last day of the
    month before. *)
Definition zero_checked (leap : bool) (m : Z) : bool :=
  (m =? 1) ||
  (let yd := ydOf leap m 0 in
   (0 <=? yd) && (yd <? (if leap then 366 else 365)) &&
   (snd (monthDay leap yd) =? monthLen leap (m - 1))).

Definition calendar_checked (leap : bool) : bool :=
  forallb (fun m => zero_checked leap m && forallb (day_checked leap m) (range 1 31))
          (range 1 12).

(** ** The data of the examples *)

Definition example_rng : Rand := mkRand (fun n => Z.of_nat (7 * n + 3)) 0.
Definition example_rander : Rander :=
  mkRander (fun n => match n with
                     | O => inr (errorString "unexpected EOF")
                     | S _ => inl [18; 52; 86; 120; 154; 188; 77; 239; 129; 35; 69; 103; 137; 171; 205; 239]%N
                     end) 0.
Definition example_state : State := initial example_rng example_rander.
Definition users_ssn : ColumnMapper := mkColumnMapper "public" "users" "ssn".

Definition example_uuid : string := "6ba7b810-9dad-11d1-80b4-00c04fd430c8".

(** The two and the four decimal digits of a number. *)
Definition digits2 (x : Z) : string :=
  String (digit (x / 10)) (String (digit (x mod 10)) "").

Definition digits4 (x : Z) : string :=
  String (digit (x / 1000)) (String (digit (x / 100 mod 10))
    (String (digit (x / 10 mod 10)) (String (digit (x mod 10)) ""))).

(** The state whose random source yields [a], then [b] for ever. *)
Definition drawing (a b : Z) : State :=
  initial (mkRand (fun n => match n with O => a | S _ => b end) 0) example_rander.

(** Two scopes with a dot in a name. *)
Definition scope_dotted_schema : ColumnMapper := mkColumnMapper "a.b" "c" "d".
Definition scope_dotted_table : ColumnMapper := mkColumnMapper "a" "b.c" "d".

(** The state after the invocation [c] (the state itself if it panics). *)
Definition state_after (c : Call) (st : State) : State :=
  match @invoke google_uuid c st with
  | Ok (_, st') => st'
  | Panicked _ => st
  end.

Definition example_iban : string := "DE89370400440532013000".

Definition example_state1 : State :=
  state_after (CallIBANScrambler users_ssn example_iban) example_state.

Definition example_state2 : State :=
  state_after (CallAlphaNumericScrambler users_ssn "ABC-1a2bC") example_state1.

(** * More of the package *)

(** The bytes of the three classes that [scrambleString] replaces. *)
Definition isAlnum (c : ascii) : bool := isLower c || isUpper c || isDigit c.

Fixpoint alnum_count (s : string) : nat :=
  match s with
  | EmptyString => O
  | String c s' => ((if isAlnum c then 1 else 0) + alnum_count s')%nat
  end.

(** The state after [k] more values of [math/rand] have been consumed. *)
Definition advance (st : State) (k : nat) : State :=
  with_rng st (mkRand (draws (rng st)) (cursor (rng st) + k)).

(** The index of the byte [o] in the set of its class. *)
Definition set_index (o : ascii) : Z :=
  if isLower o then Z.of_N (byte_val o) - 97
  else if isUpper o then Z.of_N (byte_val o) - 65
  else Z.of_N (byte_val o) - 48.

(** The draws that make [scrambleString s] return [t]: one index for each
    byte of [s] that is replaced. *)
Fixpoint draws_for (s t : string) : list Z :=
  match s, t with
  | String c s', String o t' =>
      (if isAlnum c then [set_index o] else []) ++ draws_for s' t'
  | _, _ => []
  end.

(** A random source that produces the values of [l], in order. *)
Definition rand_of (l : list Z) : Rand := mkRand (fun n => nth n l 0) 0.

(** The invocations that memoize: of the alphanumeric scrambler, those
    under a scope whose three parent fields are non-empty. *)
Definition memoizing (c : Call) : Prop :=
  match c with
  | CallAlphaNumericScrambler cmap _ => all_nonempty cmap
  | _ => True
  end.

(** What an invocation leaves alone: the maps of the other two processors
    and the source of randomness it does not draw from. *)
Definition untouched (c : Call) (st st' : State) : Prop :=
  match c with
  | CallAlphaNumericScrambler _ _ =>
      UUIDMap st' = UUIDMap st /\ IBANMap st' = IBANMap st /\ rander st' = rander st
  | CallIBANScrambler _ _ =>
      AlphaNumericMap st' = AlphaNumericMap st /\ UUIDMap st' = UUIDMap st /\
      rander st' = rander st
  | CallRandomUUID _ _ =>
      AlphaNumericMap st' = AlphaNumericMap st /\ IBANMap st' = IBANMap st /\
      rng st' = rng st
  end.

(** What is checked, by computation, of a calendar date: day [d] of month
    [m] is a day of the year, and [monthDay] finds [m] and [d] again. *)
Definition roundtrip_checked (leap : bool) (m d : Z) : bool :=
  (monthLen leap m <? d) ||
  (let yd := ydOf leap m d in
   (0 <=? yd) && (yd <? (if leap then 366 else 365)) &&
   (let '(Mo, D) := monthDay leap yd in (Mo =? m) && (D =? d))).

(** And of a day the date randomizer can draw: the date it falls on is
    not a 31st outside January and August, nor after the 29th in March. *)
Definition gaps_checked (leap : bool) (m d : Z) : bool :=
  (prevLen leap m <? d) ||
  (let '(Mo, D) := monthDay leap (ydOf leap m d) in
   (negb (D =? 31) || (Mo =? 1) || (Mo =? 8)) && (negb (Mo =? 3) || (D <=? 29))).

Definition table_checked (f : bool -> Z -> Z -> bool) (leap : bool) : bool :=
  forallb (fun m => forallb (f leap m) (range 1 31)) (range 1 12).

(** ** The date processor *)

(** [strings.Split(s, sep)] for a separator of one byte: the pieces of
    [s] between the occurrences of [sep]. *)
Fixpoint strings_Split (s : string) (sep : ascii) : list string :=
  match s with
  | EmptyString => [""]
  | String c s' =>
      if decide (c = sep) then "" :: strings_Split s' sep
      else match strings_Split s' sep with
           | piece :: pieces => String c piece :: pieces
           | [] => [String c ""]
           end
  end.

(** [strconv.Atoi] (64-bit [int]): an optional sign and at least one
    decimal digit, within the range of [int]; [None] is an error. *)
Definition strconv_Atoi (s : string) : option Z :=
  match s with
  | EmptyString => None
  | String c rest =>
      let digits := if decide (c = "-"%char) then rest
                    else if decide (c = "+"%char) then rest else s in
      match digits with
      | EmptyString => None
      | _ =>
          match number digits 0 with
          | Some n =>
              let v := if decide (c = "-"%char) then - n else n in
              if (- 2 ^ 63 <=? v) && (v <=? 2 ^ 63 - 1) then Some v else None
          | None => None
          end
      end
  end.

(** [fmt.Errorf] with one argument printed by [%q] is a parameter. *)
Class FmtPackage : Type := {
  fmt_Errorf : string -> list string -> error
}.

Definition ProcessorRandomDate `{FmtPackage} (_ : ColumnMapper) (input : string)
  : M (string * option error) :=
  let dateSplit := strings_Split input "-" in
  if (length dateSplit <? 3)%nat || (3 <? length dateSplit)%nat then
    ret ("", Some (fmt_Errorf "Date format is not ISO-8601: %q" dateSplit))
  else
    match strconv_Atoi (nth 0 dateSplit "") with
    | None => ret ("", Some (fmt_Errorf "Unable to parse year from date: %q" dateSplit))
    | Some year =>
        let* scrambledDate := randomizeDate year in
        ret (scrambledDate, None)
    end.

(** The number of occurrences of the byte [sep] in [s]. *)
Fixpoint count_byte (sep : ascii) (s : string) : nat :=
  match s with
  | EmptyString => O
  | String c s' => ((if decide (c = sep) then 1 else 0) + count_byte sep s')%nat
  end.

(** An instance of the formatter for the examples: the format alone. *)
Definition plain_fmt : FmtPackage := {| fmt_Errorf := fun format _ => errorString format |}.

(** ** The country codes

    [CountryCodes] as [init] leaves it: the entries of the embedded JSON
    document [countryCodes], in order ([json.Unmarshal] is not modelled;
    a [\u] escape of the document is the UTF-8 encoding of its
    character). *)
Record CountryCode : Type := mkCountryCode { Code : string; Name : string }.

Definition CountryCodes : list CountryCode := [
  mkCountryCode "AF" "Afghanistan";
  mkCountryCode "AX" "Åland Islands";
  mkCountryCode "AL" "Albania";
  mkCountryCode "DZ" "Algeria";
  mkCountryCode "AS" "American Samoa";
  mkCountryCode "AD" "Andorra";
  mkCountryCode "AO" "Angola";
  mkCountryCode "AI" "Anguilla";
  mkCountryCode "AQ" "Antarctica";
  mkCountryCode "AG" "Antigua and Barbuda";
  mkCountryCode "AR" "Argentina";
  mkCountryCode "AM" "Armenia";
  mkCountryCode "AW" "Aruba";
  mkCountryCode "AU" "Australia";
  mkCountryCode "AT" "Austria";
  mkCountryCode "AZ" "Azerbaijan";
  mkCountryCode "BS" "Bahamas";
  mkCountryCode "BH" "Bahrain";
  mkCountryCode "BD" "Bangladesh";
  mkCountryCode "BB" "Barbados";
  mkCountryCode "BY" "Belarus";
  mkCountryCode "BE" "Belgium";
  mkCountryCode "BZ" "Belize";
  mkCountryCode "BJ" "Benin";
  mkCountryCode "BM" "Bermuda";
  mkCountryCode "BT" "Bhutan";
  mkCountryCode "BO" "Bolivia, Plurinational State of";
  mkCountryCode "BQ" "Bonaire, Sint Eustatius and Saba";
  mkCountryCode "BA" "Bosnia and Herzegovina";
  mkCountryCode "BW" "Botswana";
  mkCountryCode "BV" "Bouvet Island";
  mkCountryCode "BR" "Brazil";
  mkCountryCode "IO" "British Indian Ocean Territory";
  mkCountryCode "BN" "Brunei Darussalam";
  mkCountryCode "BG" "Bulgaria";
  mkCountryCode "BF" "Burkina Faso";
  mkCountryCode "BI" "Burundi";
  mkCountryCode "KH" "Cambodia";
  mkCountryCode "CM" "Cameroon";
  mkCountryCode "CA" "Canada";
  mkCountryCode "CV" "Cape Verde";
  mkCountryCode "KY" "Cayman Islands";
  mkCountryCode "CF" "Central African Republic";
  mkCountryCode "TD" "Chad";
  mkCountryCode "CL" "Chile";
  mkCountryCode "CN" "China";
  mkCountryCode "CX" "Christmas Island";
  mkCountryCode "CC" "Cocos (Keeling) Islands";
  mkCountryCode "CO" "Colombia";
  mkCountryCode "KM" "Comoros";
  mkCountryCode "CG" "Congo";
  mkCountryCode "CD" "Congo, the Democratic Republic of the";
  mkCountryCode "CK" "Cook Islands";
  mkCountryCode "CR" "Costa Rica";
  mkCountryCode "CI" "Côte d'Ivoire";
  mkCountryCode "HR" "Croatia";
  mkCountryCode "CU" "Cuba";
  mkCountryCode "CW" "Curaçao";
  mkCountryCode "CY" "Cyprus";
  mkCountryCode "CZ" "Czech Republic";
  mkCountryCode "DK" "Denmark";
  mkCountryCode "DJ" "Djibouti";
  mkCountryCode "DM" "Dominica";
  mkCountryCode "DO" "Dominican Republic";
  mkCountryCode "EC" "Ecuador";
  mkCountryCode "EG" "Egypt";
  mkCountryCode "SV" "El Salvador";
  mkCountryCode "GQ" "Equatorial Guinea";
  mkCountryCode "ER" "Eritrea";
  mkCountryCode "EE" "Estonia";
  mkCountryCode "ET" "Ethiopia";
  mkCountryCode "FK" "Falkland Islands (Malvinas)";
  mkCountryCode "FO" "Faroe Islands";
  mkCountryCode "FJ" "Fiji";
  mkCountryCode "FI" "Finland";
  mkCountryCode "FR" "France";
  mkCountryCode "GF" "French Guiana";
  mkCountryCode "PF" "French Polynesia";
  mkCountryCode "TF" "French Southern Territories";
  mkCountryCode "GA" "Gabon";
  mkCountryCode "GM" "Gambia";
  mkCountryCode "GE" "Georgia";
  mkCountryCode "DE" "Germany";
  mkCountryCode "GH" "Ghana";
  mkCountryCode "GI" "Gibraltar";
  mkCountryCode "GR" "Greece";
  mkCountryCode "GL" "Greenland";
  mkCountryCode "GD" "Grenada";
  mkCountryCode "GP" "Guadeloupe";
  mkCountryCode "GU" "Guam";
  mkCountryCode "GT" "Guatemala";
  mkCountryCode "GG" "Guernsey";
  mkCountryCode "GN" "Guinea";
  mkCountryCode "GW" "Guinea-Bissau";
  mkCountryCode "GY" "Guyana";
  mkCountryCode "HT" "Haiti";
  mkCountryCode "HM" "Heard Island and McDonald Islands";
  mkCountryCode "VA" "Holy See (Vatican City State)";
  mkCountryCode "HN" "Honduras";
  mkCountryCode "HK" "Hong Kong";
  mkCountryCode "HU" "Hungary";
  mkCountryCode "IS" "Iceland";
  mkCountryCode "IN" "India";
  mkCountryCode "ID" "Indonesia";
  mkCountryCode "IR" "Iran, Islamic Republic of";
  mkCountryCode "IQ" "Iraq";
  mkCountryCode "IE" "Ireland";
  mkCountryCode "IM" "Isle of Man";
  mkCountryCode "IL" "Israel";
  mkCountryCode "IT" "Italy";
  mkCountryCode "JM" "Jamaica";
  mkCountryCode "JP" "Japan";
  mkCountryCode "JE" "Jersey";
  mkCountryCode "JO" "Jordan";
  mkCountryCode "KZ" "Kazakhstan";
  mkCountryCode "KE" "Kenya";
  mkCountryCode "KI" "Kiribati";
  mkCountryCode "KP" "Korea, Democratic People's Republic of";
  mkCountryCode "KR" "Korea, Republic of";
  mkCountryCode "KW" "Kuwait";
  mkCountryCode "KG" "Kyrgyzstan";
  mkCountryCode "LA" "Lao People's Democratic Republic";
  mkCountryCode "LV" "Latvia";
  mkCountryCode "LB" "Lebanon";
  mkCountryCode "LS" "Lesotho";
  mkCountryCode "LR" "Liberia";
  mkCountryCode "LY" "Libya";
  mkCountryCode "LI" "Liechtenstein";
  mkCountryCode "LT" "Lithuania";
  mkCountryCode "LU" "Luxembourg";
  mkCountryCode "MO" "Macao";
  mkCountryCode "MK" "Macedonia, the Former Yugoslav Republic of";
  mkCountryCode "MG" "Madagascar";
  mkCountryCode "MW" "Malawi";
  mkCountryCode "MY" "Malaysia";
  mkCountryCode "MV" "Maldives";
  mkCountryCode "ML" "Mali";
  mkCountryCode "MT" "Malta";
  mkCountryCode "MH" "Marshall Islands";
  mkCountryCode "MQ" "Martinique";
  mkCountryCode "MR" "Mauritania";
  mkCountryCode "MU" "Mauritius";
  mkCountryCode "YT" "Mayotte";
  mkCountryCode "MX" "Mexico";
  mkCountryCode "FM" "Micronesia, Federated States of";
  mkCountryCode "MD" "Moldova, Republic of";
  mkCountryCode "MC" "Monaco";
  mkCountryCode "MN" "Mongolia";
  mkCountryCode "ME" "Montenegro";
  mkCountryCode "MS" "Montserrat";
  mkCountryCode "MA" "Morocco";
  mkCountryCode "MZ" "Mozambique";
  mkCountryCode "MM" "Myanmar";
  mkCountryCode "NA" "Namibia";
  mkCountryCode "NR" "Nauru";
  mkCountryCode "NP" "Nepal";
  mkCountryCode "NL" "Netherlands";
  mkCountryCode "NC" "New Caledonia";
  mkCountryCode "NZ" "New Zealand";
  mkCountryCode "NI" "Nicaragua";
  mkCountryCode "NE" "Niger";
  mkCountryCode "NG" "Nigeria";
  mkCountryCode "NU" "Niue";
  mkCountryCode "NF" "Norfolk Island";
  mkCountryCode "MP" "Northern Mariana Islands";
  mkCountryCode "NO" "Norway";
  mkCountryCode "OM" "Oman";
  mkCountryCode "PK" "Pakistan";
  mkCountryCode "PW" "Palau";
  mkCountryCode "PS" "Palestine, State of";
  mkCountryCode "PA" "Panama";
  mkCountryCode "PG" "Papua New Guinea";
  mkCountryCode "PY" "Paraguay";
  mkCountryCode "PE" "Peru";
  mkCountryCode "PH" "Philippines";
  mkCountryCode "PN" "Pitcairn";
  mkCountryCode "PL" "Poland";
  mkCountryCode "PT" "Portugal";
  mkCountryCode "PR" "Puerto Rico";
  mkCountryCode "QA" "Qatar";
  mkCountryCode "RE" "Réunion";
  mkCountryCode "RO" "Romania";
  mkCountryCode "RU" "Russian Federation";
  mkCountryCode "RW" "Rwanda";
  mkCountryCode "BL" "Saint Barthélemy";
  mkCountryCode "SH" "Saint Helena, Ascension and Tristan da Cunha";
  mkCountryCode "KN" "Saint Kitts and Nevis";
  mkCountryCode "LC" "Saint Lucia";
  mkCountryCode "MF" "Saint Martin (French part)";
  mkCountryCode "PM" "Saint Pierre and Miquelon";
  mkCountryCode "VC" "Saint Vincent and the Grenadines";
  mkCountryCode "WS" "Samoa";
  mkCountryCode "SM" "San Marino";
  mkCountryCode "ST" "Sao Tome and Principe";
  mkCountryCode "SA" "Saudi Arabia";
  mkCountryCode "SN" "Senegal";
  mkCountryCode "RS" "Serbia";
  mkCountryCode "SC" "Seychelles";
  mkCountryCode "SL" "Sierra Leone";
  mkCountryCode "SG" "Singapore";
  mkCountryCode "SX" "Sint Maarten (Dutch part)";
  mkCountryCode "SK" "Slovakia";
  mkCountryCode "SI" "Slovenia";
  mkCountryCode "SB" "Solomon Islands";
  mkCountryCode "SO" "Somalia";
  mkCountryCode "ZA" "South Africa";
  mkCountryCode "GS" "South Georgia and the South Sandwich Islands";
  mkCountryCode "SS" "South Sudan";
  mkCountryCode "ES" "Spain";
  mkCountryCode "LK" "Sri Lanka";
  mkCountryCode "SD" "Sudan";
  mkCountryCode "SR" "Suriname";
  mkCountryCode "SJ" "Svalbard and Jan Mayen";
  mkCountryCode "SZ" "Swaziland";
  mkCountryCode "SE" "Sweden";
  mkCountryCode "CH" "Switzerland";
  mkCountryCode "SY" "Syrian Arab Republic";
  mkCountryCode "TW" "Taiwan, Province of China";
  mkCountryCode "TJ" "Tajikistan";
  mkCountryCode "TZ" "Tanzania, United Republic of";
  mkCountryCode "TH" "Thailand";
  mkCountryCode "TL" "Timor-Leste";
  mkCountryCode "TG" "Togo";
  mkCountryCode "TK" "Tokelau";
  mkCountryCode "TO" "Tonga";
  mkCountryCode "TT" "Trinidad and Tobago";
  mkCountryCode "TN" "Tunisia";
  mkCountryCode "TR" "Turkey";
  mkCountryCode "TM" "Turkmenistan";
  mkCountryCode "TC" "Turks and Caicos Islands";
  mkCountryCode "TV" "Tuvalu";
  mkCountryCode "UG" "Uganda";
  mkCountryCode "UA" "Ukraine";
  mkCountryCode "AE" "United Arab Emirates";
  mkCountryCode "GB" "United Kingdom";
  mkCountryCode "US" "United States";
  mkCountryCode "UM" "United States Minor Outlying Islands";
  mkCountryCode "UY" "Uruguay";
  mkCountryCode "UZ" "Uzbekistan";
  mkCountryCode "VU" "Vanuatu";
  mkCountryCode "VE" "Venezuela, Bolivarian Republic of";
  mkCountryCode "VN" "Viet Nam";
  mkCountryCode "VG" "Virgin Islands, British";
  mkCountryCode "VI" "Virgin Islands, U.S.";
  mkCountryCode "WF" "Wallis and Futuna";
  mkCountryCode "EH" "Western Sahara";
  mkCountryCode "YE" "Yemen";
  mkCountryCode "ZM" "Zambia";
  mkCountryCode "ZW" "Zimbabwe"
].

(** [rand.Int63n(n)]: panics when [n <= 0], otherwise a value of [[0,n)]
    from the global source. *)
Definition Int63n (n : Z) : M Z :=
  fun st =>
    if n <=? 0 then Panicked PanicIntnArg
    else
      let r := rng st in
      Ok (draws r (cursor r) mod n, with_rng st (mkRand (draws r) (S (cursor r)))).

(** [CountryCodes[i]]: panics outside the slice. *)
Definition countryAt (i : Z) : M CountryCode :=
  fun st =>
    if i <? 0 then Panicked PanicIndexRange
    else match CountryCodes !! Z.to_nat i with
         | Some cc => Ok (cc, st)
         | None => Panicked PanicIndexRange
         end.

Definition ProcessorRandomCountryCode (_ : ColumnMapper) (_ : string)
  : M (string * option error) :=
  let* i := Int63n (Z.of_nat (length CountryCodes)) in
  let* cc := countryAt i in
  ret (Code cc, None).

(** A code of two uppercase letters. *)
Definition two_uppercase (s : string) : bool :=
  match s with
  | String a (String b EmptyString) => isUpper a && isUpper b
  | _ => false
  end.

(** ** The scrub processor

    [utf8.RuneCountInString] as the standard library computes it: the
    table [first] gives, for the first byte of a sequence, its size (low
    three bits) and the range accepted for the second byte (high four
    bits); a byte that starts no valid sequence counts for one rune. *)

Definition utf8_xx : N := 241.  (* 0xF1: invalid, size 1 *)
Definition utf8_as : N := 240.  (* 0xF0: ASCII, size 1 *)
Definition utf8_s1 : N := 2.    (* 0x02: accept 0, size 2 *)
Definition utf8_s2 : N := 19.   (* 0x13: accept 1, size 3 *)
Definition utf8_s3 : N := 3.    (* 0x03: accept 0, size 3 *)
Definition utf8_s4 : N := 35.   (* 0x23: accept 2, size 3 *)
Definition utf8_s5 : N := 52.   (* 0x34: accept 3, size 4 *)
Definition utf8_s6 : N := 4.    (* 0x04: accept 0, size 4 *)
Definition utf8_s7 : N := 68.   (* 0x44: accept 4, size 4 *)

Definition utf8_locb : N := 128. (* 0b10000000 *)
Definition utf8_hicb : N := 191. (* 0b10111111 *)

(** [first[c]]. *)
Definition utf8_first (c : N) : N :=
  (if c <? 128 then utf8_as
   else if c <? 194 then utf8_xx
   else if c <? 224 then utf8_s1
   else if c =? 224 then utf8_s2
   else if c <? 237 then utf8_s3
   else if c =? 237 then utf8_s4
   else if c <? 240 then utf8_s3
   else if c =? 240 then utf8_s5
   else if c <? 244 then utf8_s6
   else if c =? 244 then utf8_s7
   else utf8_xx)%N.

(** [acceptRanges[k]], as the pair of [lo] and [hi]. *)
Definition utf8_acceptRanges (k : N) : N * N :=
  (if k =? 0 then (utf8_locb, utf8_hicb)
   else if k =? 1 then (160, utf8_hicb)
   else if k =? 2 then (utf8_locb, 159)
   else if k =? 3 then (144, utf8_hicb)
   else if k =? 4 then (utf8_locb, 143)
   else (0, 0))%N.

(** The byte [s[i+k]] of the loop, [rest] being what follows [s[i]]. *)
Definition byteAfter (rest : string) (k : nat) : N :=
  match String.get (k - 1) rest with
  | Some c => byte_val c
  | None => 0%N
  end.

(** By how much the loop of [RuneCountInString] advances [i] at a
    position that holds the byte [c], followed by [rest]. *)
Definition runeStep (c : ascii) (rest : string) : nat :=
  if (byte_val c <? 128)%N then 1%nat
  else
    let x := utf8_first (byte_val c) in
    if (x =? utf8_xx)%N then 1%nat
    else
      let size := N.to_nat (N.land x 7) in
      if (S (String.length rest) <? size)%nat then 1%nat
      else
        let accept := utf8_acceptRanges (N.shiftr x 4) in
        if ((byteAfter rest 1 <? fst accept) || (snd accept <? byteAfter rest 1))%N then 1%nat
        else if (size =? 2)%nat then size
        else if ((byteAfter rest 2 <? utf8_locb) || (utf8_hicb <? byteAfter rest 2))%N then 1%nat
        else if (size =? 3)%nat then size
        else if ((byteAfter rest 3 <? utf8_locb) || (utf8_hicb <? byteAfter rest 3))%N then 1%nat
        else size.

(** The loop: [skip] bytes are still to be passed over before the next
    rune starts. *)
Fixpoint runeCountLoop (s : string) (skip : nat) : nat :=
  match s with
  | EmptyString => O
  | String c rest =>
      match skip with
      | S k => runeCountLoop rest k
      | O => S (runeCountLoop rest (runeStep c rest - 1))
      end
  end.

Definition utf8_RuneCountInString (s : string) : nat := runeCountLoop s 0.

(** [strings.Repeat(s, count)] for [count >= 0]. *)
Fixpoint strings_Repeat (s : string) (count : nat) : string :=
  match count with
  | O => ""
  | S n => s +:+ strings_Repeat s n
  end.

Definition scrubString (input : string) : string :=
  strings_Repeat "*" (utf8_RuneCountInString input).

Definition ProcessorScrubString (_ : ColumnMapper) (input : string)
  : M (string * option error) :=
  ret (scrubString input, None).

(** Every byte of [s] is below [0x80]. *)
Fixpoint isASCII (s : string) : bool :=
  match s with
  | EmptyString => true
  | String c s' => (byte_val c <? 128)%N && isASCII s'
  end.

(** The UTF-8 encoding of the code point [r]. *)
Definition utf8_encode (r : N) : string :=
  (if r <? 128 then String (ascii_of_N r) ""
   else if r <? 2048 then
     String (ascii_of_N (192 + r / 64)) (String (ascii_of_N (128 + r mod 64)) "")
   else if r <? 65536 then
     String (ascii_of_N (224 + r / 4096))
       (String (ascii_of_N (128 + r / 64 mod 64)) (String (ascii_of_N (128 + r mod 64)) ""))
   else
     String (ascii_of_N (240 + r / 262144))
       (String (ascii_of_N (128 + r / 4096 mod 64))
          (String (ascii_of_N (128 + r / 64 mod 64))
             (String (ascii_of_N (128 + r mod 64)) ""))))%N.

Fixpoint utf8_encode_all (rs : list N) : string :=
  match rs with
  | [] => ""
  | r :: rs' => utf8_encode r +:+ utf8_encode_all rs'
  end.

(** A Unicode scalar value: a code point up to [U+10FFFF] that is not a
    surrogate. *)
Definition isScalar (r : N) : bool :=
  ((r <? 55296) || ((57343 <? r) && (r <=? 1114111)))%N.

(** A state of the example in which the next UUID can be generated. *)
Definition example_state3 : State :=
  initial example_rng (mkRander (reads example_rander) 1).

Definition example_urn : string := "urn:uuid:6BA7B810-9DAD-11D1-80B4-00C04FD430C8".

(** * Properties *)

(** ** The monad *)

Lemma bind_ok {A B} (m : M A) (k : A -> M B) st a st' :
  m st = Ok (a, st') -> bind m k st = k a st'.
Proof. intros E. unfold bind. now rewrite E. Qed.

Lemma bind_inv {A B} (m : M A) (k : A -> M B) st b st2 :
  bind m k st = Ok (b, st2) ->
  exists a st1, m st = Ok (a, st1) /\ k a st1 = Ok (b, st2).
Proof.
  unfold bind. destruct (m st) as [[a st1]|p] eqn:E; [|discriminate].
  intros K. now exists a, st1.
Qed.

Lemma only_rng_refl st : only_rng st st.
Proof. exists (rng st). now destruct st. Qed.

Lemma only_rng_trans st1 st2 st3 :
  only_rng st1 st2 -> only_rng st2 st3 -> only_rng st1 st3.
Proof. intros [r ->] [r' ->]. now exists r'. Qed.

Lemma only_rng_maps st st' : only_rng st st' -> same_maps st st'.
Proof. intros [r ->]. now repeat split. Qed.

(** ** math/rand and the pickers *)

Lemma Intn_ok n st :
  0 < n ->
  exists r st', Intn n st = Ok (r, st') /\ 0 <= r < n /\ only_rng st st' /\
    r = draws (rng st) (cursor (rng st)) mod n.
Proof.
  intros Hn. unfold Intn.
  destruct (n <=? 0) eqn:E; [apply Z.leb_le in E; lia|].
  eexists _, _. split; [reflexivity|]. split; [apply Z.mod_pos_bound; lia|].
  split; [eexists; reflexivity | reflexivity].
Qed.

Lemma index_ok s i c st :
  0 <= i -> String.get (Z.to_nat i) s = Some c -> index s i st = Ok (c, st).
Proof.
  intros Hi E. unfold index.
  destruct (i <? 0) eqn:L; [apply Z.ltb_lt in L; lia|]. now rewrite E.
Qed.

(** Every index below the length of a set reads a byte of that set. *)
Lemma pick_in_set (set : string) (P : ascii -> bool) (len : nat) :
  (forallb (fun n => match String.get n set with Some c => P c | None => false end) (seq 0 len)) = true ->
  forall i, 0 <= i < Z.of_nat len ->
    exists c, String.get (Z.to_nat i) set = Some c /\ P c = true.
Proof.
  intros Hall i Hi. rewrite forallb_forall in Hall.
  specialize (Hall (Z.to_nat i)).
  destruct (String.get (Z.to_nat i) set) as [c|].
  - exists c. split; [reflexivity|]. apply Hall. apply in_seq. lia.
  - exfalso. assert (false = true) by (apply Hall; apply in_seq; lia). discriminate.
Qed.

Lemma picker_ok (set : string) (P : ascii -> bool) (len : nat) st :
  (0 < len)%nat ->
  (forallb (fun n => match String.get n set with Some c => P c | None => false end) (seq 0 len)) = true ->
  exists c st',
    (let* i := Intn (Z.of_nat len) in let* c := index set i in ret (String c "")) st
      = Ok (String c "", st') /\ P c = true /\ only_rng st st'.
Proof.
  intros Hlen Hall.
  destruct (Intn_ok (Z.of_nat len) st) as (r & st' & E & Hr & Ho & _); [lia|].
  destruct (pick_in_set set P len Hall r Hr) as (c & G & Pc).
  exists c, st'. split; [|now split].
  rewrite (bind_ok _ _ _ _ _ E).
  rewrite (bind_ok _ _ _ _ _ (index_ok set r c st' (proj1 Hr) G)). reflexivity.
Qed.

Lemma randomLowercase_ok st :
  exists c st', randomLowercase st = Ok (String c "", st') /\ isLower c = true /\ only_rng st st'.
Proof. apply (picker_ok lowercaseSet isLower 26); [lia | now vm_compute]. Qed.

Lemma randomUppercase_ok st :
  exists c st', randomUppercase st = Ok (String c "", st') /\ isUpper c = true /\ only_rng st st'.
Proof. apply (picker_ok uppercaseSet isUpper 26); [lia | now vm_compute]. Qed.

Lemma randomNumeric_ok st :
  exists c st', randomNumeric st = Ok (String c "", st') /\ isDigit c = true /\ only_rng st st'.
Proof. apply (picker_ok numericSet isDigit 10); [lia | now vm_compute]. Qed.

(** ** scrambleString *)

Lemma scrambleByte_ok c st :
  exists o st', scrambleByte c st = Ok (String o "", st') /\ same_class c o /\ only_rng st st'.
Proof.
  unfold scrambleByte, same_class.
  destruct (isLower c); [apply randomLowercase_ok|].
  destruct (isUpper c); [apply randomUppercase_ok|].
  destruct (isDigit c); [apply randomNumeric_ok|].
  exists c, st. split; [reflexivity|]. split; [reflexivity | apply only_rng_refl].
Qed.

Lemma append_cons (x : ascii) (a b : string) : String x a +:+ b = String x (a +:+ b).
Proof. reflexivity. Qed.

Lemma append_nil_l (b : string) : "" +:+ b = b.
Proof. reflexivity. Qed.

Lemma append_nil_r (a : string) : a +:+ "" = a.
Proof. induction a as [|x a IH]; [reflexivity | now rewrite append_cons, IH]. Qed.

Lemma append_assoc (a b c : string) : (a +:+ b) +:+ c = a +:+ (b +:+ c).
Proof. induction a as [|x a IH]; [reflexivity | now rewrite !append_cons, IH]. Qed.

Lemma append_length (a b : string) :
  String.length (a +:+ b) = (String.length a + String.length b)%nat.
Proof. induction a as [|x a IH]; [reflexivity | rewrite append_cons; simpl; now rewrite IH]. Qed.

Lemma scrambleLoop_ok rest : forall b st,
  exists out st', scrambleLoop rest b st = Ok (b +:+ out, st') /\
    scrambled rest out /\ only_rng st st'.
Proof.
  induction rest as [|c rest IH]; intros b st; simpl.
  - exists "", st. split; [|split; [constructor | apply only_rng_refl]].
    now rewrite append_nil_r.
  - destruct (scrambleByte_ok c st) as (o & st1 & E & Hc & H1).
    destruct (IH (b +:+ String o "") st1) as (out & st2 & E2 & Hs & H2).
    exists (String o out), st2. split; [|split].
    + rewrite (bind_ok _ _ _ _ _ E), E2. now rewrite append_assoc, append_cons, append_nil_l.
    + now constructor.
    + eapply only_rng_trans; eassumption.
Qed.

Lemma scrambleString_ok input st :
  exists out st', scrambleString input st = Ok (out, st') /\
    scrambled input out /\ only_rng st st'.
Proof. apply (scrambleLoop_ok input "" st). Qed.

Lemma scrambled_length s t : scrambled s t -> String.length t = String.length s.
Proof. induction 1; simpl; congruence. Qed.

Lemma scrambled_get s t :
  scrambled s t ->
  forall i c, String.get i s = Some c -> exists o, String.get i t = Some o /\ same_class c o.
Proof.
  induction 1 as [|c0 o0 s t Hc Hs IH]; intros i c G; [destruct i; discriminate|].
  destruct i as [|i]; simpl in *.
  - injection G as <-. now exists o0.
  - now apply IH.
Qed.

(** C3. For every input string and every state of the random source,
    [scrambleString] returns (it never panics) a string of the byte length
    of its input in which every position that held a lowercase letter
    holds a lowercase letter, every uppercase position an uppercase
    letter, every digit position a digit, and every other byte is the
    byte of the input; only the random source is consumed. *)
Theorem scrambleString_length_and_classes (input : string) (st : State) :
  exists out st',
    scrambleString input st = Ok (out, st') /\
    String.length out = String.length input /\
    (forall i c, String.get i input = Some c ->
       exists o, String.get i out = Some o /\ same_class c o) /\
    only_rng st st'.
Proof.
  destruct (scrambleString_ok input st) as (out & st' & E & Hs & Ho).
  exists out, st'. split; [exact E|]. split; [now apply scrambled_length|].
  split; [now apply scrambled_get | exact Ho].
Qed.

(** ** The processors, case by case *)

Lemma cond_true cmap : all_nonempty cmap ->
  nonempty (ParentSchema cmap) && nonempty (ParentTable cmap) && nonempty (ParentColumn cmap) = true.
Proof.
  intros (A & B & C). unfold nonempty.
  repeat case_decide; try contradiction; reflexivity.
Qed.

Lemma cond_false cmap : ~ all_nonempty cmap ->
  nonempty (ParentSchema cmap) && nonempty (ParentTable cmap) && nonempty (ParentColumn cmap) = false.
Proof.
  intros N. unfold nonempty, all_nonempty in *.
  repeat case_decide; try reflexivity. exfalso. apply N. now repeat split.
Qed.

Lemma inner_of_size_pos (m : gmap string (gmap string string)) k :
  (1 <= size (inner_of m k))%nat -> m !! k = Some (inner_of m k).
Proof.
  unfold inner_of. destruct (m !! k) as [i|]; simpl; [reflexivity|].
  rewrite map_size_empty. lia.
Qed.

Lemma inner_of_size_zero (m : gmap string (gmap string string)) k :
  (size (inner_of m k) < 1)%nat -> inner_of m k = ∅.
Proof. intros Hs. apply map_size_empty_inv. lia. Qed.



Lemma alnum_prepared_lookup st key :
  AlphaNumericMap (alnum_prepared st key) !! key = Some (inner_of (AlphaNumericMap st) key).
Proof.
  unfold alnum_prepared. destruct (size _ <? 1)%nat eqn:E.
  - apply Nat.ltb_lt in E. simpl. rewrite lookup_insert_eq.
    f_equal. symmetry. now apply inner_of_size_zero.
  - apply Nat.ltb_ge in E. now apply inner_of_size_pos.
Qed.

Lemma alnum_prepared_frame st key :
  UUIDMap (alnum_prepared st key) = UUIDMap st /\
  IBANMap (alnum_prepared st key) = IBANMap st /\
  rander (alnum_prepared st key) = rander st /\
  rng (alnum_prepared st key) = rng st /\
  forall i, <[key := i]> (AlphaNumericMap (alnum_prepared st key)) = <[key := i]> (AlphaNumericMap st).
Proof.
  unfold alnum_prepared. destruct (size _ <? 1)%nat; simpl; repeat split; try reflexivity.
  intros i. now rewrite insert_insert_eq.
Qed.

Lemma alnum_mapped_unfold cmap input st :
  all_nonempty cmap ->
  let key := parentKeyOf cmap in
  let cur := value_of (inner_of (AlphaNumericMap st) key) input in
  ProcessorAlphaNumericScrambler cmap input st =
  (if (String.length cur <? 1)%nat then
     let* scramble := scrambleString input in
     let* _ := store_alnum key input scramble in
     ret (scramble, None)
   else ret (cur, None)) (alnum_prepared st key).
Proof.
  intros Hne key cur.
  unfold ProcessorAlphaNumericScrambler. rewrite (cond_true _ Hne). fold key.
  unfold bind at 1. unfold gets at 1.
  unfold bind at 1.
  assert (E : (if (size (inner_of (AlphaNumericMap st) key) <? 1)%nat
               then modify (fun st0 => with_AlphaNumericMap st0 (<[key:=∅]> (AlphaNumericMap st0)))
               else ret tt) st = Ok (tt, alnum_prepared st key)).
  { unfold alnum_prepared. now destruct (size _ <? 1)%nat. }
  rewrite E. unfold bind at 1. unfold gets at 1.
  unfold inner_of at 1 2. rewrite alnum_prepared_lookup. simpl. reflexivity.
Qed.

Lemma alnum_mapped_spec cmap input st :
  all_nonempty cmap ->
  let key := parentKeyOf cmap in
  let inner := inner_of (AlphaNumericMap st) key in
  (exists cur, inner !! input = Some cur /\ (1 <= String.length cur)%nat /\
      ProcessorAlphaNumericScrambler cmap input st = Ok ((cur, None), st))
  \/
  ((String.length (value_of inner input) < 1)%nat /\
   exists out st1,
     scramble_of input out /\
     ProcessorAlphaNumericScrambler cmap input st = Ok ((out, None), st1) /\
     AlphaNumericMap st1 = <[key := <[input := out]> inner]> (AlphaNumericMap st) /\
     UUIDMap st1 = UUIDMap st /\ IBANMap st1 = IBANMap st /\ rander st1 = rander st).
Proof.
  intros Hne key inner.
  rewrite (alnum_mapped_unfold cmap input st Hne). fold key inner.
  destruct (alnum_prepared_frame st key) as (F1 & F2 & F3 & F4 & F5).
  destruct (String.length (value_of inner input) <? 1)%nat eqn:E.
  - right. apply Nat.ltb_lt in E. split; [exact E|].
    destruct (scrambleString_ok input (alnum_prepared st key)) as (out & st1 & R & Hs & [r ->]).
    exists out. eexists. split; [eexists _, _; exact R|].
    rewrite (bind_ok _ _ _ _ _ R).
    unfold bind, store_alnum. simpl. rewrite alnum_prepared_lookup. fold inner.
    split; [reflexivity|]. simpl. rewrite F5. now repeat split.
  - left. apply Nat.ltb_ge in E.
    unfold value_of in E. destruct (inner !! input) as [cur|] eqn:L; simpl in E; [|lia].
    exists cur. split; [reflexivity|]. split; [exact E|].
    unfold value_of. rewrite L. simpl. unfold ret. f_equal. f_equal.
    unfold alnum_prepared. fold inner.
    assert (size inner <> 0)%nat.
    { intros Z0. apply map_size_empty_inv in Z0. rewrite Z0 in L. now rewrite lookup_empty in L. }
    destruct (size inner <? 1)%nat eqn:S1; [apply Nat.ltb_lt in S1; lia | reflexivity].
Qed.

Lemma iban_hit cmap input v st :
  IBANMap st !! input = Some v ->
  ProcessorIBANScrambler cmap input st = Ok ((v, None), st).
Proof. intros L. unfold ProcessorIBANScrambler, bind, gets. now rewrite L. Qed.

Lemma iban_miss_short cmap input st :
  IBANMap st !! input = None -> (String.length input < 2)%nat ->
  ProcessorIBANScrambler cmap input st = Panicked PanicSliceBounds.
Proof.
  intros L Hlen. unfold ProcessorIBANScrambler, bind, gets. rewrite L.
  unfold slice_to. destruct (2 <=? String.length input)%nat eqn:E; [|reflexivity].
  apply Nat.leb_le in E. lia.
Qed.

Lemma iban_miss_long cmap input st :
  IBANMap st !! input = None -> (2 <= String.length input)%nat ->
  exists out st1 st2,
    scrambleString (slice input 2 (String.length input)) st = Ok (out, st1) /\
    scrambled (slice input 2 (String.length input)) out /\
    ProcessorIBANScrambler cmap input st = Ok ((slice input 0 2 +:+ out, None), st2) /\
    IBANMap st2 = <[input := slice input 0 2 +:+ out]> (IBANMap st) /\
    AlphaNumericMap st2 = AlphaNumericMap st /\ UUIDMap st2 = UUIDMap st /\
    rander st2 = rander st.
Proof.
  intros L Hlen.
  destruct (scrambleString_ok (slice input 2 (String.length input)) st)
    as (out & st1 & R & Hs & [r ->]).
  exists out. eexists. eexists. split; [exact R|]. split; [exact Hs|].
  unfold ProcessorIBANScrambler. unfold bind at 1. unfold gets at 1. rewrite L.
  unfold bind at 1. unfold slice_to.
  apply Nat.leb_le in Hlen. rewrite Hlen.
  unfold bind at 1. unfold slice_from. rewrite Hlen.
  rewrite (bind_ok _ _ _ _ _ R). unfold bind, modify, ret.
  split; [reflexivity|]. simpl. now repeat split.
Qed.

Section UUIDFacts.
Context `{UUIDPackage}.

Lemma uuid_parse_fail cmap input u e st :
  uuid_Parse input = (u, Some e) ->
  ProcessorRandomUUID cmap input st = Ok (("", Some e), st).
Proof. intros P. unfold ProcessorRandomUUID. now rewrite P. Qed.

Lemma uuid_parse_ok cmap input u st :
  uuid_Parse input = (u, None) ->
  ProcessorRandomUUID cmap input st = randomizeUUID u st.
Proof. intros P. unfold ProcessorRandomUUID. now rewrite P. Qed.

Lemma randomizeUUID_hit u v st :
  UUIDMap st !! u = Some v ->
  randomizeUUID u st = Ok ((uuid_String v, None), st).
Proof. intros L. unfold randomizeUUID, bind, gets. now rewrite L. Qed.


Lemma randomizeUUID_miss_ok u v st :
  UUIDMap st !! u = None ->
  reads (rander st) (rcursor (rander st)) = inl v ->
  randomizeUUID u st =
    Ok ((uuid_String v, None), with_UUIDMap (rander_next st) (<[u := v]> (UUIDMap st))).
Proof.
  intros L R. unfold randomizeUUID, bind, gets, uuid_NewRandom. rewrite L, R. reflexivity.
Qed.

Lemma randomizeUUID_miss_err u e st :
  UUIDMap st !! u = None ->
  reads (rander st) (rcursor (rander st)) = inr e ->
  randomizeUUID u st = Ok (("", Some e), rander_next st).
Proof.
  intros L R. unfold randomizeUUID, bind, gets, uuid_NewRandom. rewrite L, R. reflexivity.
Qed.
End UUIDFacts.


Lemma scramble_of_scrambled s out : scramble_of s out -> scrambled s out.
Proof.
  intros (st & st' & E).
  destruct (scrambleString_ok s st) as (out' & st'' & E' & Hs & _).
  rewrite E in E'. now injection E' as -> _.
Qed.

Lemma scramble_of_length s out : scramble_of s out -> String.length out = String.length s.
Proof. intros Hs. now apply scrambled_length, scramble_of_scrambled. Qed.

Lemma length_zero_empty (s : string) : (String.length s < 1)%nat -> s = "".
Proof. destruct s; simpl; [reflexivity | lia]. Qed.

Lemma alnum_unmapped_spec cmap input st :
  ~ all_nonempty cmap ->
  exists out st',
    scrambleString input st = Ok (out, st') /\
    ProcessorAlphaNumericScrambler cmap input st = Ok ((out, None), st') /\
    only_rng st st'.
Proof.
  intros N. unfold ProcessorAlphaNumericScrambler. rewrite (cond_false _ N).
  destruct (scrambleString_ok input st) as (out & st' & R & _ & Ho).
  exists out, st'. split; [exact R|]. split; [|exact Ho].
  now rewrite (bind_ok _ _ _ _ _ R).
Qed.

Lemma all_nonempty_dec cmap : {all_nonempty cmap} + {~ all_nonempty cmap}.
Proof.
  unfold all_nonempty.
  destruct (decide (ParentSchema cmap = "")); [right; tauto|].
  destruct (decide (ParentTable cmap = "")); [right; tauto|].
  destruct (decide (ParentColumn cmap = "")); [right; tauto|].
  left; tauto.
Qed.

Lemma kept_refl st : bindings_kept st st.
Proof. repeat split; eauto. Qed.

Lemma kept_trans st1 st2 st3 :
  bindings_kept st1 st2 -> bindings_kept st2 st3 -> bindings_kept st1 st3.
Proof.
  intros (A1 & U1 & I1) (A2 & U2 & I2). repeat split; eauto.
  intros k1 inner k2 v L1 L2.
  destruct (A1 _ _ _ _ L1 L2) as (inner' & L1' & L2'). eauto.
Qed.

Lemma kept_same_maps st st' : same_maps st st' -> bindings_kept st st'.
Proof.
  intros (A & U & I). unfold bindings_kept. rewrite A, U, I. repeat split; eauto.
Qed.

Lemma wf_same_maps st st' : same_maps st st' -> wf st -> wf st'.
Proof. intros (A & U & I). unfold wf. now rewrite A, I. Qed.

Lemma alnum_wf_kept cmap input st r st' :
  wf st -> ProcessorAlphaNumericScrambler cmap input st = Ok (r, st') ->
  wf st' /\ bindings_kept st st'.
Proof.
  intros W E.
  destruct (all_nonempty_dec cmap) as [Hne|N].
  - destruct (alnum_mapped_spec cmap input st Hne) as [(cur & L & Hl & R)|(Hl & out & st1 & Hs & R & A & U & I & _)];
      rewrite R in E; injection E as <- <-.
    + split; [exact W | apply kept_refl].
    + set (key := parentKeyOf cmap) in *. set (inner := inner_of (AlphaNumericMap st) key) in *.
      destruct W as (WA & WI). split.
      * split; [|now rewrite I].
        intros k i v o. rewrite A. rewrite lookup_insert. case_decide as Ek.
        -- intros [= <-]. rewrite lookup_insert. case_decide as Ev.
           ++ now intros [= <-]; subst.
           ++ intros L. unfold inner, inner_of in L.
              destruct (AlphaNumericMap st !! key) as [i0|] eqn:L0; simpl in L; [eauto|].
              now rewrite lookup_empty in L.
        -- eauto.
      * split; [|now rewrite U, I].
        intros k1 i k2 v L1 L2. rewrite A. rewrite lookup_insert. case_decide as Ek.
        -- subst k1. eexists. split; [reflexivity|].
           assert (Ei : inner = i) by (unfold inner, inner_of; now rewrite L1). subst i.
           rewrite lookup_insert. case_decide as Ev; [|exact L2]. subst k2.
           unfold value_of in Hl. rewrite L2 in Hl. simpl in Hl.
           apply length_zero_empty in Hl. subst v.
           pose proof (scramble_of_length _ _ (WA _ _ _ _ L1 L2)) as Hin.
           pose proof (scramble_of_length _ _ Hs) as Hout.
           simpl in Hin. rewrite <- Hin in Hout.
           f_equal. apply length_zero_empty. lia.
        -- eauto.
  - destruct (alnum_unmapped_spec cmap input st N) as (out & st1 & _ & R & Ho).
    rewrite R in E. injection E as <- <-.
    apply only_rng_maps in Ho. split; [now apply (wf_same_maps st) | now apply kept_same_maps].
Qed.

(** ** The invariant of the maps along a run *)

Lemma iban_wf_kept cmap input st r st' :
  wf st -> ProcessorIBANScrambler cmap input st = Ok (r, st') ->
  wf st' /\ bindings_kept st st'.
Proof.
  intros W E.
  destruct (IBANMap st !! input) as [v|] eqn:L.
  - rewrite (iban_hit cmap input v st L) in E. injection E as <- <-.
    split; [exact W | apply kept_refl].
  - destruct (le_lt_dec 2 (String.length input)) as [Hlen|Hlen].
    + destruct (iban_miss_long cmap input st L Hlen)
        as (out & st1 & st2 & R & Hs & P & I & A & U & _).
      rewrite P in E. injection E as <- <-.
      destruct W as (WA & WI). split.
      * split; [now rewrite A|].
        intros k v. rewrite I, lookup_insert. case_decide as Ek; [|eauto].
        intros [= <-]. subst k. split; [exact Hlen|].
        exists out. split; [now exists st, st1 | reflexivity].
      * split; [rewrite A; eauto|]. split; [now rewrite U|].
        intros k v Lk. rewrite I, lookup_insert_ne; [exact Lk | congruence].
    + now rewrite (iban_miss_short cmap input st L Hlen) in E.
Qed.

Section Runs.
Context `{UUIDPackage}.

Lemma uuid_wf_kept cmap input st r st' :
  wf st -> ProcessorRandomUUID cmap input st = Ok (r, st') ->
  wf st' /\ bindings_kept st st'.
Proof.
  intros W E.
  destruct (uuid_Parse input) as [u [e|]] eqn:P.
  - rewrite (uuid_parse_fail cmap input u e st P) in E. injection E as <- <-.
    split; [exact W | apply kept_refl].
  - rewrite (uuid_parse_ok cmap input u st P) in E.
    destruct (UUIDMap st !! u) as [v|] eqn:L.
    + rewrite (randomizeUUID_hit u v st L) in E. injection E as <- <-.
      split; [exact W | apply kept_refl].
    + destruct (reads (rander st) (rcursor (rander st))) as [v|e] eqn:R.
      * rewrite (randomizeUUID_miss_ok u v st L R) in E. injection E as <- <-.
        split; [exact W|].
        split; [simpl; eauto|]. split; [|simpl; eauto].
        intros k w Lk. simpl. rewrite lookup_insert_ne; [exact Lk | congruence].
      * rewrite (randomizeUUID_miss_err u e st L R) in E. injection E as <- <-.
        split; [exact W | apply kept_same_maps; now repeat split].
Qed.

Lemma invoke_wf_kept c st r st' :
  wf st -> invoke c st = Ok (r, st') -> wf st' /\ bindings_kept st st'.
Proof.
  destruct c as [cmap input|cmap input|cmap input]; simpl.
  - apply alnum_wf_kept.
  - apply iban_wf_kept.
  - apply uuid_wf_kept.
Qed.

Lemma step_wf_kept st st' : wf st -> step st st' -> wf st' /\ bindings_kept st st'.
Proof.
  intros W S. destruct S as [c st r st' E|st r e].
  - exact (invoke_wf_kept c st r st' W E).
  - split; [exact W | apply kept_same_maps; now repeat split].
Qed.

Lemma steps_wf_kept st st' : wf st -> rtc step st st' -> wf st' /\ bindings_kept st st'.
Proof.
  intros W S. induction S as [s|s1 s2 s3 S1 _ IH].
  - split; [exact W | apply kept_refl].
  - destruct (step_wf_kept _ _ W S1) as (W2 & K1).
    destruct (IH W2) as (W3 & K2). split; [exact W3 | now apply (kept_trans _ s2)].
Qed.

Lemma wf_initial r e : wf (initial r e).
Proof. split; intros *; simpl; now rewrite lookup_empty. Qed.

Lemma reachable_wf st : reachable st -> wf st.
Proof. intros (r & e & S). exact (proj1 (steps_wf_kept _ _ (wf_initial r e) S)). Qed.

Lemma reachable_steps st st' : reachable st -> rtc step st st' -> reachable st'.
Proof. intros (r & e & S) S'. exists r, e. now transitivity st. Qed.

(** C9. Write-once store: along every run from process start, whatever
    the sequence of processor invocations, a key bound in one of the
    three consistency maps (alphanumeric by scope, UUID, IBAN) stays
    bound to the same value in every later state: no invocation changes
    the value of an existing key, and none removes an entry. *)
Theorem write_once_maps (st st' : State) :
  reachable st -> rtc step st st' -> bindings_kept st st'.
Proof. intros R S. exact (proj2 (steps_wf_kept _ _ (reachable_wf _ R) S)). Qed.
End Runs.

(** C9 along two invocations of the example: what the IBAN scrambler
    stored is still there after the alphanumeric scrambler has run. *)
Lemma write_once_maps_witness : bindings_kept example_state1 example_state2.
Proof.
  apply (@write_once_maps google_uuid example_state1 example_state2).
  - exists example_rng, example_rander. apply rtc_once.
    apply (@step_invoke google_uuid (CallIBANScrambler users_ssn example_iban)
             example_state ("DE30741852963074185296", None) example_state1).
    vm_compute. reflexivity.
  - apply rtc_once.
    apply (@step_invoke google_uuid (CallAlphaNumericScrambler users_ssn "ABC-1a2bC")
             example_state1 ("NUB-4p8dK", None) example_state2).
    vm_compute. reflexivity.
Defined.

(** ** Consistency of repeated invocations *)

Lemma inner_of_lookup (m : gmap string (gmap string string)) k v o :
  inner_of m k !! v = Some o -> m !! k = Some (inner_of m k).
Proof.
  unfold inner_of. destruct (m !! k); simpl; [reflexivity|]. now rewrite lookup_empty.
Qed.

Lemma alnum_bound_after cmap v st r st1 :
  all_nonempty cmap ->
  ProcessorAlphaNumericScrambler cmap v st = Ok (r, st1) ->
  exists out inner1, r = (out, None) /\
    AlphaNumericMap st1 !! parentKeyOf cmap = Some inner1 /\ inner1 !! v = Some out.
Proof.
  intros Hne E.
  destruct (alnum_mapped_spec cmap v st Hne)
    as [(cur & L & Hl & R)|(Hl & out & st' & Hs & R & A & _)];
    rewrite R in E; injection E as <- <-.
  - exists cur. eexists. split; [reflexivity|]. split; [|exact L].
    now apply (inner_of_lookup _ _ v cur).
  - exists out. eexists. split; [reflexivity|]. rewrite A, lookup_insert_eq.
    split; [reflexivity | apply lookup_insert_eq].
Qed.

Lemma alnum_reads_back cmap v st inner out :
  all_nonempty cmap -> wf st ->
  AlphaNumericMap st !! parentKeyOf cmap = Some inner -> inner !! v = Some out ->
  exists st', ProcessorAlphaNumericScrambler cmap v st = Ok ((out, None), st').
Proof.
  intros Hne W L1 L2.
  assert (Ei : inner_of (AlphaNumericMap st) (parentKeyOf cmap) = inner)
    by (unfold inner_of; now rewrite L1).
  destruct (alnum_mapped_spec cmap v st Hne)
    as [(cur & L & Hl & R)|(Hl & out' & st' & Hs & R & _)]; rewrite Ei in *.
  - exists st. rewrite R. congruence.
  - exists st'. rewrite R. do 2 f_equal.
    unfold value_of in Hl. rewrite L2 in Hl. simpl in Hl.
    apply length_zero_empty in Hl. subst out.
    pose proof (scramble_of_length _ _ (proj1 W _ _ _ _ L1 L2)) as Hv.
    pose proof (scramble_of_length _ _ Hs) as Ho. simpl in Hv.
    f_equal. apply length_zero_empty. lia.
Qed.

Lemma iban_bound_after cmap input st r st1 :
  ProcessorIBANScrambler cmap input st = Ok (r, st1) ->
  exists out, r = (out, None) /\ IBANMap st1 !! input = Some out.
Proof.
  intros E. destruct (IBANMap st !! input) as [v|] eqn:L.
  - rewrite (iban_hit cmap input v st L) in E. injection E as <- <-. now exists v.
  - destruct (le_lt_dec 2 (String.length input)) as [Hlen|Hlen].
    + destruct (iban_miss_long cmap input st L Hlen) as (out & s1 & s2 & _ & _ & P & I & _).
      rewrite P in E. injection E as <- <-. eexists. split; [reflexivity|].
      rewrite I. apply lookup_insert_eq.
    + now rewrite (iban_miss_short cmap input st L Hlen) in E.
Qed.

Lemma iban_returns cmap input st :
  (2 <= String.length input)%nat ->
  exists out st1, ProcessorIBANScrambler cmap input st = Ok ((out, None), st1).
Proof.
  intros Hlen. destruct (IBANMap st !! input) as [v|] eqn:L.
  - exists v, st. now apply iban_hit.
  - destruct (iban_miss_long cmap input st L Hlen) as (out & s1 & s2 & _ & _ & P & _).
    eexists _, _. exact P.
Qed.

Section Consistency.
Context `{UUIDPackage}.

Lemma randomizeUUID_returns id st :
  exists r st1, randomizeUUID id st = Ok (r, st1) /\
    (snd r = None -> exists v, r = (uuid_String v, None) /\ UUIDMap st1 !! id = Some v).
Proof.
  destruct (UUIDMap st !! id) as [v|] eqn:L.
  - eexists _, _. split; [exact (randomizeUUID_hit id v st L)|]. intros _. now exists v.
  - destruct (reads (rander st) (rcursor (rander st))) as [v|e] eqn:R.
    + eexists _, _. split; [exact (randomizeUUID_miss_ok id v st L R)|]. intros _. exists v.
      split; [reflexivity|]. simpl. apply lookup_insert_eq.
    + eexists _, _. split; [exact (randomizeUUID_miss_err id e st L R)|]. discriminate.
Qed.

(** C2, as amended.  In every state of a run: (1) for every raw value
    and every scope whose three parent fields are non-empty, the
    alphanumeric scrambler returns, and every later invocation with the
    same value and scope returns the same output, whatever was invoked
    and drawn in between; (2) for every input that parses as a UUID the
    UUID randomizer returns, and when it returned no error every later
    invocation with the same input returns the same output; (3) for
    every input of at least two bytes the IBAN scrambler returns, and
    every later invocation with the same input returns the same
    output. *)
Theorem consistency_after_first_success (st : State) :
  reachable st ->
  (forall cmap v, all_nonempty cmap ->
     exists out st1,
       ProcessorAlphaNumericScrambler cmap v st = Ok ((out, None), st1) /\
       forall st2, rtc step st1 st2 ->
         exists st3, ProcessorAlphaNumericScrambler cmap v st2 = Ok ((out, None), st3))
  /\
  (forall cmap input id, uuid_Parse input = (id, None) ->
     exists r st1,
       ProcessorRandomUUID cmap input st = Ok (r, st1) /\
       (snd r = None ->
        forall cmap' st2, rtc step st1 st2 ->
          ProcessorRandomUUID cmap' input st2 = Ok (r, st2)))
  /\
  (forall cmap input, (2 <= String.length input)%nat ->
     exists out st1,
       ProcessorIBANScrambler cmap input st = Ok ((out, None), st1) /\
       forall cmap' st2, rtc step st1 st2 ->
         ProcessorIBANScrambler cmap' input st2 = Ok ((out, None), st2)).
Proof.
  intros Hr. pose proof (reachable_wf _ Hr) as W. split; [|split].
  - intros cmap v Hne.
    destruct (all_nonempty_dec cmap) as [_|N]; [|contradiction].
    destruct (ProcessorAlphaNumericScrambler cmap v st) as [[r st1]|p] eqn:E.
    2:{ destruct (alnum_mapped_spec cmap v st Hne)
          as [(? & _ & _ & R)|(_ & ? & ? & _ & R & _)]; congruence. }
    destruct (alnum_bound_after cmap v st r st1 Hne E) as (out & inner1 & -> & L1 & L2).
    exists out, st1. split; [reflexivity|]. intros st2 S.
    destruct (alnum_wf_kept cmap v st _ st1 W E) as (W1 & _).
    destruct (steps_wf_kept st1 st2 W1 S) as (W2 & (KA & _)).
    destruct (KA _ _ _ _ L1 L2) as (inner2 & L1' & L2').
    now apply (alnum_reads_back cmap v st2 inner2 out).
  - intros cmap input id P.
    rewrite (uuid_parse_ok cmap input id st P).
    destruct (randomizeUUID_returns id st) as (r & st1 & E & Hok).
    exists r, st1. split; [exact E|]. intros Hnone cmap' st2 S.
    destruct (Hok Hnone) as (v & -> & L).
    assert (W1 : wf st1).
    { apply (uuid_wf_kept cmap input st (uuid_String v, None) st1 W).
      now rewrite (uuid_parse_ok cmap input id st P). }
    destruct (steps_wf_kept st1 st2 W1 S) as (_ & (_ & KU & _)).
    rewrite (uuid_parse_ok cmap' input id st2 P).
    apply randomizeUUID_hit. now apply KU.
  - intros cmap input Hlen.
    destruct (iban_returns cmap input st Hlen) as (out & st1 & E).
    exists out, st1. split; [exact E|]. intros cmap' st2 S.
    destruct (iban_bound_after cmap input st _ st1 E) as (out' & [= <-] & L).
    destruct (iban_wf_kept cmap input st _ st1 W E) as (W1 & _).
    destruct (steps_wf_kept st1 st2 W1 S) as (_ & (_ & _ & KI)).
    apply iban_hit. now apply KI.
Qed.
End Consistency.

(** The amended C2 at the start of a run of the example. *)
Lemma consistency_after_first_success_witness :
  (forall cmap v, all_nonempty cmap ->
       exists out st1,
         ProcessorAlphaNumericScrambler cmap v example_state = Ok ((out, None), st1) /\
         forall st2, rtc (@step google_uuid) st1 st2 ->
           exists st3, ProcessorAlphaNumericScrambler cmap v st2 = Ok ((out, None), st3))
    /\
    (forall cmap input id, GoogleUUID.Parse input = (id, None) ->
       exists r st1,
         @ProcessorRandomUUID google_uuid cmap input example_state = Ok (r, st1) /\
         (snd r = None ->
          forall cmap' st2, rtc (@step google_uuid) st1 st2 ->
            @ProcessorRandomUUID google_uuid cmap' input st2 = Ok (r, st2)))
    /\
    (forall cmap input, (2 <= String.length input)%nat ->
       exists out st1,
         ProcessorIBANScrambler cmap input example_state = Ok ((out, None), st1) /\
         forall cmap' st2, rtc (@step google_uuid) st1 st2 ->
           ProcessorIBANScrambler cmap' input st2 = Ok ((out, None), st2)).
Proof.
  apply (@consistency_after_first_success google_uuid example_state).
  exists example_rng, example_rander. apply rtc_refl.
Defined.

(** C2 as stated fails: the input parses as a UUID, the generation of a
    fresh UUID fails at the first invocation (the empty string and the
    error are returned and nothing is stored) and succeeds at the second
    one, whose output is another string.  And on an input of less than
    two bytes the IBAN scrambler returns no output at all. *)
Lemma uuid_outputs_differ_after_failed_generation :
  (exists id e st1 out st2,
     GoogleUUID.Parse example_uuid = (id, None) /\
     @ProcessorRandomUUID google_uuid users_ssn example_uuid example_state
       = Ok (("", Some e), st1) /\
     @ProcessorRandomUUID google_uuid users_ssn example_uuid st1 = Ok ((out, None), st2) /\
     out = "12345678-9abc-4def-8123-456789abcdef") /\
  ProcessorIBANScrambler users_ssn "" example_state = Panicked PanicSliceBounds.
Proof.
  split; [|reflexivity].
  eexists _, _, _, _, _. split; [reflexivity|]. split; [reflexivity|].
  split; [vm_compute; reflexivity | reflexivity].
Qed.

(** ** The UUID randomizer on unparseable input *)

(** C1, as amended.  For every input string that does not parse as a
    UUID, the UUID randomizer returns the empty string together with the
    error of the parser (a non-nil error), and leaves the state as it
    was. *)
Theorem uuid_unparseable_returns_the_parse_error `{UUIDPackage}
    (cmap : ColumnMapper) (input : string) (id : UUID) (e : error) (st : State) :
  uuid_Parse input = (id, Some e) ->
  ProcessorRandomUUID cmap input st = Ok (("", Some e), st).
Proof. apply uuid_parse_fail. Qed.

(** The amended C1 on an input that is too short for a UUID. *)
Lemma uuid_unparseable_returns_the_parse_error_witness :
  GoogleUUID.Parse "not-a-uuid" = (GoogleUUID.Nil, Some (errorString "invalid UUID length")) /\
  @ProcessorRandomUUID google_uuid users_ssn "not-a-uuid" example_state
    = Ok (("", Some (errorString "invalid UUID length")), example_state).
Proof.
  split; [reflexivity|].
  apply (@uuid_unparseable_returns_the_parse_error google_uuid users_ssn "not-a-uuid"
           GoogleUUID.Nil (errorString "invalid UUID length") example_state).
  reflexivity.
Defined.

(** C1 as stated fails: on an input that does not parse, the error that
    is returned with the empty string is not nil. *)
Lemma uuid_unparseable_error_is_not_nil :
  exists id e,
    GoogleUUID.Parse "not-a-uuid" = (id, Some e) /\
    @ProcessorRandomUUID google_uuid users_ssn "not-a-uuid" example_state
      = Ok (("", Some e), example_state) /\
    Some e <> None.
Proof. eexists _, _. split; [reflexivity|]. split; [reflexivity | discriminate]. Qed.

(** ** The IBAN scrambler *)

(** C6 at the failing inputs: on the empty string and on a string of one
    byte, neither of them memoized, the IBAN scrambler evaluates
    [input[:2]] out of range and panics; it returns neither a value nor
    an error. *)
Theorem iban_short_input_panics :
  ProcessorIBANScrambler users_ssn "" example_state = Panicked PanicSliceBounds /\
  ProcessorIBANScrambler users_ssn "D" example_state = Panicked PanicSliceBounds.
Proof. split; reflexivity. Qed.

Lemma substring_app_l (a b : string) : String.substring 0 (String.length a) (a +:+ b) = a.
Proof.
  induction a as [|x a IH]; simpl.
  - now destruct b.
  - now rewrite IH.
Qed.

Lemma substring_app_r (a b : string) :
  String.substring (String.length a) (String.length b) (a +:+ b) = b.
Proof.
  induction a as [|x a IH]; simpl.
  - rewrite append_nil_l. induction b as [|y b IHb]; simpl; [reflexivity | now rewrite IHb].
  - exact IH.
Qed.

Lemma substring_length (s : string) : forall n m,
  (n + m <= String.length s)%nat -> String.length (String.substring n m s) = m.
Proof.
  induction s as [|x s IH]; intros n m Hle; simpl in *.
  - destruct n, m; simpl; lia.
  - destruct n as [|n]; [destruct m as [|m]; simpl; [reflexivity|]|].
    + rewrite IH; lia.
    + apply IH. lia.
Qed.

Lemma head_length (s : string) :
  (2 <= String.length s)%nat -> String.length (slice s 0 2) = 2%nat.
Proof. intros Hlen. unfold slice. apply substring_length. simpl. lia. Qed.

Lemma slice_head_app (a b : string) :
  String.length a = 2%nat -> slice (a +:+ b) 0 2 = a.
Proof. intros Ha. unfold slice. simpl. rewrite <- Ha. apply substring_app_l. Qed.

Lemma slice_tail_app (a b : string) :
  String.length a = 2%nat -> slice (a +:+ b) 2 (String.length (a +:+ b)) = b.
Proof.
  intros Ha. unfold slice. rewrite append_length, Ha.
  replace (2 + String.length b - 2)%nat with (String.length b) by lia.
  rewrite <- Ha. apply substring_app_r.
Qed.

Section IBAN.
Context `{UUIDPackage}.

(** C8.  In every state of a run and for every input of at least two
    bytes, the IBAN scrambler returns, without error, an output whose
    first two bytes are those of the input and whose remainder is a
    character-class scramble of the remainder of the input, and after the
    call the IBAN map binds the raw input to that output. *)
Theorem iban_keeps_prefix_scrambles_rest_and_memoizes
    (cmap : ColumnMapper) (input : string) (st : State) :
  reachable st -> (2 <= String.length input)%nat ->
  exists out st',
    ProcessorIBANScrambler cmap input st = Ok ((out, None), st') /\
    slice out 0 2 = slice input 0 2 /\
    scramble_of (slice input 2 (String.length input)) (slice out 2 (String.length out)) /\
    IBANMap st' !! input = Some out.
Proof.
  intros Hr Hlen. pose proof (reachable_wf _ Hr) as W.
  destruct (iban_returns cmap input st Hlen) as (out & st' & E).
  exists out, st'. split; [exact E|].
  destruct (iban_bound_after cmap input st _ st' E) as (out' & [= <-] & L).
  destruct (iban_wf_kept cmap input st _ st' W E) as ((_ & WI) & _).
  destruct (WI _ _ L) as (_ & rest & Hs & ->).
  pose proof (head_length input Hlen) as H2.
  rewrite (slice_head_app _ _ H2), (slice_tail_app _ _ H2).
  now repeat split.
Qed.
End IBAN.

(** C8 on an IBAN, at the start of a run. *)
Lemma iban_keeps_prefix_scrambles_rest_and_memoizes_witness :
  exists out st',
    ProcessorIBANScrambler users_ssn "DE89370400440532013000" example_state = Ok ((out, None), st') /\
    slice out 0 2 = "DE" /\
    scramble_of "89370400440532013000" (slice out 2 (String.length out)) /\
    IBANMap st' !! "DE89370400440532013000" = Some out.
Proof.
  apply (@iban_keeps_prefix_scrambles_rest_and_memoizes google_uuid users_ssn
           "DE89370400440532013000" example_state).
  - exists example_rng, example_rander. apply rtc_refl.
  - simpl. lia.
Defined.

(** ** Scope keys *)

Lemma dot_split (a : string) : forall a' r r',
  dot_free a = true -> dot_free a' = true ->
  a +:+ String "." r = a' +:+ String "." r' -> a = a' /\ r = r'.
Proof.
  induction a as [|x a IH]; intros [|y a'] r r' Da Da' E;
    rewrite ?append_cons, ?append_nil_l in E; simpl in Da, Da'.
  - now injection E.
  - injection E as <- _. now destruct (decide ("."%char = "."%char)).
  - injection E as -> _. now destruct (decide ("."%char = "."%char)).
  - injection E as -> E.
    destruct (decide (y = "."%char)); [discriminate|]. simpl in Da, Da'.
    destruct (IH a' r r' Da Da' E) as (-> & ->). now split.
Qed.

Lemma parentKeyOf_inj c1 c2 :
  dot_free (ParentSchema c1) = true -> dot_free (ParentTable c1) = true ->
  dot_free (ParentSchema c2) = true -> dot_free (ParentTable c2) = true ->
  parentKeyOf c1 = parentKeyOf c2 -> parent_triple c1 = parent_triple c2.
Proof.
  intros S1 T1 S2 T2 E. unfold parentKeyOf in E.
  destruct c1 as [s1 t1 k1], c2 as [s2 t2 k2]; simpl in *.
  change (s1 +:+ String "." (t1 +:+ String "." k1) = s2 +:+ String "." (t2 +:+ String "." k2)) in E.
  destruct (dot_split _ _ _ _ S1 S2 E) as (-> & E').
  destruct (dot_split _ _ _ _ T1 T2 E') as (-> & ->). reflexivity.
Qed.

(** C7, as amended.  For two column-metadata values whose parent triples
    are distinct and all-non-empty and whose parent schema and parent
    table names contain no ['.'], the scope keys are distinct, and an
    invocation of the alphanumeric scrambler under one triple leaves the
    inner map of the other triple as it was: an entry inserted under one
    is never read back under the other. *)
Theorem scopes_without_dots_are_partitioned (c1 c2 : ColumnMapper) :
  all_nonempty c1 -> all_nonempty c2 ->
  dot_free (ParentSchema c1) = true -> dot_free (ParentTable c1) = true ->
  dot_free (ParentSchema c2) = true -> dot_free (ParentTable c2) = true ->
  parent_triple c1 <> parent_triple c2 ->
  parentKeyOf c1 <> parentKeyOf c2 /\
  forall input st r st',
    ProcessorAlphaNumericScrambler c1 input st = Ok (r, st') ->
    inner_of (AlphaNumericMap st') (parentKeyOf c2) = inner_of (AlphaNumericMap st) (parentKeyOf c2).
Proof.
  intros N1 N2 S1 T1 S2 T2 D.
  assert (K : parentKeyOf c1 <> parentKeyOf c2).
  { intros E. apply D. now apply parentKeyOf_inj. }
  split; [exact K|]. intros input st r st' E.
  destruct (alnum_mapped_spec c1 input st N1)
    as [(cur & _ & _ & R)|(_ & out & st1 & _ & R & A & _)];
    rewrite R in E; injection E as <- <-; [reflexivity|].
  unfold inner_of. rewrite A. now rewrite lookup_insert_ne.
Qed.

(** The amended C7 for two tables of one schema. *)
Lemma scopes_without_dots_are_partitioned_witness :
  parentKeyOf users_ssn <> parentKeyOf (mkColumnMapper "public" "accounts" "ssn") /\
  forall input st r st',
    ProcessorAlphaNumericScrambler users_ssn input st = Ok (r, st') ->
    inner_of (AlphaNumericMap st') (parentKeyOf (mkColumnMapper "public" "accounts" "ssn"))
      = inner_of (AlphaNumericMap st) (parentKeyOf (mkColumnMapper "public" "accounts" "ssn")).
Proof.
  apply (scopes_without_dots_are_partitioned users_ssn (mkColumnMapper "public" "accounts" "ssn"));
    try reflexivity; try (repeat split; discriminate); discriminate.
Defined.

(** C7 as stated fails: two distinct, all-non-empty triples with the same
    scope key; what is scrambled and stored under the first is read back
    under the second. *)
Lemma dotted_scopes_share_a_key :
  all_nonempty scope_dotted_schema /\ all_nonempty scope_dotted_table /\
  parent_triple scope_dotted_schema <> parent_triple scope_dotted_table /\
  parentKeyOf scope_dotted_schema = parentKeyOf scope_dotted_table /\
  exists out st1,
    ProcessorAlphaNumericScrambler scope_dotted_schema "ABC-1a2bC" example_state = Ok ((out, None), st1) /\
    ProcessorAlphaNumericScrambler scope_dotted_table "ABC-1a2bC" st1 = Ok ((out, None), st1) /\
    inner_of (AlphaNumericMap st1) (parentKeyOf scope_dotted_table) !! "ABC-1a2bC" = Some out /\
    inner_of (AlphaNumericMap example_state) (parentKeyOf scope_dotted_table) !! "ABC-1a2bC" = None.
Proof.
  split; [repeat split; discriminate|]. split; [repeat split; discriminate|].
  split; [discriminate|]. split; [reflexivity|].
  eexists _, _. split; [vm_compute; reflexivity|].
  split; [vm_compute; reflexivity|]. split; vm_compute; reflexivity.
Qed.

(** ** Memoization *)

(** C10.  The alphanumeric scrambler always returns, without error.
    When at least one of the three parent fields is empty (whatever the
    other two are) the output is a fresh scramble of the input and the
    alphanumeric map is left exactly as it was; when the three are
    non-empty the map binds, after the call, the input to the output
    under the scope key. *)
Theorem alnum_memoizes_exactly_when_fully_scoped
    (cmap : ColumnMapper) (input : string) (st : State) :
  exists out st',
    ProcessorAlphaNumericScrambler cmap input st = Ok ((out, None), st') /\
    ((ParentSchema cmap = "" \/ ParentTable cmap = "" \/ ParentColumn cmap = "") ->
       AlphaNumericMap st' = AlphaNumericMap st /\
       scrambleString input st = Ok (out, st')) /\
    (all_nonempty cmap ->
       exists inner, AlphaNumericMap st' !! parentKeyOf cmap = Some inner /\
                     inner !! input = Some out).
Proof.
  destruct (all_nonempty_dec cmap) as [Hne|N].
  - destruct (ProcessorAlphaNumericScrambler cmap input st) as [[r st1]|p] eqn:E.
    2:{ destruct (alnum_mapped_spec cmap input st Hne)
          as [(? & _ & _ & R)|(_ & ? & ? & _ & R & _)]; congruence. }
    destruct (alnum_bound_after cmap input st r st1 Hne E) as (out & inner1 & -> & L1 & L2).
    exists out, st1. split; [reflexivity|]. split.
    + destruct Hne as (A & B & C). intros [?|[?|?]]; contradiction.
    + intros _. now exists inner1.
  - destruct (alnum_unmapped_spec cmap input st N) as (out & st1 & R & E & Ho).
    exists out, st1. split; [exact E|]. split; [|contradiction].
    intros _. split; [exact (proj1 (only_rng_maps _ _ Ho)) | exact R].
Qed.

(** ** The calendar *)

Lemma cycleYear_spec b c e yd :
  0 <= b <= 3 -> 0 <= c <= 24 -> 0 <= e <= 3 -> 0 <= yd <= 365 ->
  (yd = 365 -> e = 3 /\ (c <> 24 \/ b = 3)) ->
  cycleYear (36524 * b + 1461 * c + 365 * e + yd) = (100 * b + 4 * c + e, yd).
Proof.
  intros Hb Hc He Hyd Hleap. unfold cycleYear. cbv zeta.
  set (d := 36524 * b + 1461 * c + 365 * e + yd).
  assert (E1 : d / 36524 - d / 36524 / 4 = b).
  { unfold d. Z.div_mod_to_equations. lia. }
  rewrite E1.
  assert (E2 : (d - 36524 * b) / 1461 = c).
  { unfold d. Z.div_mod_to_equations. lia. }
  rewrite E2.
  assert (E3 : (d - 36524 * b - 1461 * c) / 365 - (d - 36524 * b - 1461 * c) / 365 / 4 = e).
  { unfold d. Z.div_mod_to_equations. lia. }
  rewrite E3. f_equal; unfold d; lia.
Qed.

Lemma year_decompose y :
  exists a b c e,
    y - 1 = 400 * a + 100 * b + 4 * c + e /\
    0 <= b <= 3 /\ 0 <= c <= 24 /\ 0 <= e <= 3 /\
    daysSinceEpoch y = 146097 * a + 36524 * b + 1461 * c + 365 * e /\
    isLeap y = (e =? 3) && (negb (c =? 24) || (b =? 3)).
Proof.
  exists ((y - 1) / 400), ((y - 1) mod 400 / 100), ((y - 1) mod 100 / 4), ((y - 1) mod 4).
  unfold daysSinceEpoch, isLeap. cbv zeta.
  repeat split; Z.div_mod_to_equations; lia.
Qed.

Lemma absDate_in_year y yd :
  0 <= yd < yearLen y ->
  absDate (daysSinceEpoch y + yd) = (y, fst (monthDay (isLeap y) yd), snd (monthDay (isLeap y) yd)).
Proof.
  intros Hyd.
  destruct (year_decompose y) as (a & b & c & e & Hy & Hb & Hc & He & HD & HL).
  unfold yearLen in Hyd.
  assert (Hyd' : 0 <= yd <= 365 /\ (yd = 365 -> e = 3 /\ (c <> 24 \/ b = 3))).
  { rewrite HL in Hyd.
    destruct (Z.eqb_spec e 3), (Z.eqb_spec c 24), (Z.eqb_spec b 3); simpl in Hyd; lia. }
  destruct Hyd' as (Hr & Hl).
  unfold absDate. cbv zeta. rewrite HD.
  assert (E0 : (146097 * a + 36524 * b + 1461 * c + 365 * e + yd) / 146097 = a).
  { Z.div_mod_to_equations. lia. }
  rewrite E0.
  replace (146097 * a + 36524 * b + 1461 * c + 365 * e + yd - 146097 * a)
    with (36524 * b + 1461 * c + 365 * e + yd) by lia.
  rewrite (cycleYear_spec b c e yd Hb Hc He Hr Hl).
  replace (400 * a + (100 * b + 4 * c + e) + 1) with y by lia.
  now destruct (monthDay (isLeap y) yd).
Qed.

Lemma range_forallb (f : Z -> bool) a n :
  forallb f (range a n) = true -> forall x, a <= x < a + Z.of_nat n -> f x = true.
Proof.
  intros Hall x Hx. rewrite forallb_forall in Hall. apply Hall.
  unfold range. apply in_map_iff. exists (Z.to_nat (x - a)). split; [lia|].
  apply in_seq. lia.
Qed.

Lemma calendar_checked_true leap : calendar_checked leap = true.
Proof. destruct leap; vm_compute; reflexivity. Qed.

Lemma month_checked leap m :
  1 <= m <= 12 ->
  zero_checked leap m = true /\
  forall d, 1 <= d <= 31 -> day_checked leap m d = true.
Proof.
  intros Hm.
  pose proof (range_forallb _ 1 12 (calendar_checked_true leap) m ltac:(lia)) as C.
  cbv beta in C. apply andb_true_iff in C as [C0 C1]. split; [exact C0|].
  intros d Hd. apply (range_forallb _ 1 31 C1). lia.
Qed.

Lemma daysSinceEpoch_prev y :
  daysSinceEpoch y = daysSinceEpoch (y - 1) + yearLen (y - 1).
Proof.
  destruct (year_decompose (y - 1)) as (a & b & c & e & Hy & Hb & Hc & He & HD & HL).
  unfold yearLen. rewrite HL, HD. unfold daysSinceEpoch. cbv zeta.
  destruct (Z.eqb_spec e 3), (Z.eqb_spec c 24), (Z.eqb_spec b 3); simpl;
    Z.div_mod_to_equations; lia.
Qed.

Lemma time_Date_in_range y m d :
  1 <= m <= 12 -> time_Date y m d = daysSinceEpoch y + ydOf (isLeap y) m d.
Proof.
  intros Hm. unfold time_Date, ydOf. cbv zeta.
  replace ((m - 1) / 12) with 0 by (Z.div_mod_to_equations; lia).
  replace ((m - 1) mod 12 + 1) with m by (Z.div_mod_to_equations; lia).
  replace (y + 0) with y by lia.
  destruct (isLeap y && (3 <=? m)); lia.
Qed.

Lemma prevLen_bounds leap m : 28 <= prevLen leap m <= 31.
Proof.
  unfold prevLen, monthLen. destruct (m =? 1); [lia|].
  destruct (m - 1 =? 2); [destruct leap; lia|].
  destruct ((m - 1 =? 4) || (m - 1 =? 6) || (m - 1 =? 9) || (m - 1 =? 11)); lia.
Qed.

(** [time.Date(y, m, 0)] is the last day of the month before [m]. *)
Lemma day_zero_is_previous_month y m :
  1 <= m <= 12 -> Time_Day (date y m 0) = prevLen (isLeap y) m.
Proof.
  intros Hm. unfold date, Time_Day. rewrite (time_Date_in_range y m 0 Hm).
  destruct (Z.eq_dec m 1) as [->|Hm1].
  - rewrite (daysSinceEpoch_prev y).
    replace (daysSinceEpoch (y - 1) + yearLen (y - 1) + ydOf (isLeap y) 1 0)
      with (daysSinceEpoch (y - 1) + (yearLen (y - 1) - 1))
      by (unfold ydOf; change (daysBefore (1 - 1)) with 0; destruct (isLeap y); simpl; lia).
    rewrite absDate_in_year by (unfold yearLen; destruct (isLeap (y - 1)); lia).
    unfold yearLen. now destruct (isLeap (y - 1)).
  - destruct (month_checked (isLeap y) m Hm) as (C0 & _).
    unfold zero_checked in C0. cbv zeta in C0.
    apply orb_true_iff in C0 as [C0|C0]; [apply Z.eqb_eq in C0; lia|].
    apply andb_true_iff in C0 as [C0 E]. apply andb_true_iff in C0 as [L U].
    apply Z.leb_le in L. apply Z.ltb_lt in U. apply Z.eqb_eq in E.
    rewrite absDate_in_year by (unfold yearLen; destruct (isLeap y); lia).
    simpl. rewrite E. unfold prevLen.
    destruct (Z.eqb_spec m 1); [lia | reflexivity].
Qed.

Lemma day_zero_bounds y m : 1 <= m <= 12 -> 28 <= Time_Day (date y m 0) <= 31.
Proof. intros Hm. rewrite (day_zero_is_previous_month y m Hm). apply prevLen_bounds. Qed.

(** Every day the randomizer can draw gives a date of the year. *)
Lemma date_in_year y m d :
  1 <= m <= 12 -> 1 <= d <= Time_Day (date y m 0) ->
  exists Mo D, absDate (date y m d) = (y, Mo, D) /\ valid_date y Mo D = true.
Proof.
  intros Hm Hd. rewrite (day_zero_is_previous_month y m Hm) in Hd.
  pose proof (prevLen_bounds (isLeap y) m) as Hb.
  destruct (month_checked (isLeap y) m Hm) as (_ & C).
  specialize (C d ltac:(lia)). unfold day_checked in C. cbv zeta in C.
  apply orb_true_iff in C as [C|C]; [apply Z.ltb_lt in C; lia|].
  apply andb_true_iff in C as [C V]. apply andb_true_iff in C as [L U].
  apply Z.leb_le in L. apply Z.ltb_lt in U.
  unfold date. rewrite (time_Date_in_range y m d Hm).
  rewrite absDate_in_year by (unfold yearLen; destruct (isLeap y); lia).
  destruct (monthDay (isLeap y) (ydOf (isLeap y) m d)) as [Mo D].
  exists Mo, D. split; [reflexivity | exact V].
Qed.

(** ** Formatting a date and reading it back *)

Lemma utoa_step fuel u acc :
  utoa (S fuel) u acc =
  if u <? 10 then String (digit (u mod 10)) acc
  else utoa fuel (u / 10) (String (digit (u mod 10)) acc).
Proof. reflexivity. Qed.

Lemma appendInt_nonneg x width :
  0 <= x ->
  appendInt x width =
    zeros (width - String.length (utoa 20 x "")) +:+ utoa 20 x "".
Proof.
  intros Hx. unfold appendInt. rewrite Z.abs_eq by lia.
  destruct (Z.ltb_spec x 0); [lia | reflexivity].
Qed.

Lemma appendInt_2 x : 0 <= x <= 99 -> appendInt x 2 = digits2 x.
Proof.
  intros Hx. rewrite appendInt_nonneg by lia. unfold digits2.
  rewrite utoa_step. destruct (Z.ltb_spec x 10).
  - replace (x / 10) with 0 by (Z.div_mod_to_equations; lia). reflexivity.
  - rewrite utoa_step. destruct (Z.ltb_spec (x / 10) 10); [|Z.div_mod_to_equations; lia].
    replace (x / 10 mod 10) with (x / 10) by (Z.div_mod_to_equations; lia). reflexivity.
Qed.

Lemma appendInt_4 x : 0 <= x <= 9999 -> appendInt x 4 = digits4 x.
Proof.
  intros Hx. rewrite appendInt_nonneg by lia. unfold digits4.
  rewrite utoa_step. destruct (Z.ltb_spec x 10).
  { replace (x / 1000) with 0 by (Z.div_mod_to_equations; lia).
    replace (x / 100) with 0 by (Z.div_mod_to_equations; lia).
    replace (x / 10) with 0 by (Z.div_mod_to_equations; lia). reflexivity. }
  rewrite utoa_step. destruct (Z.ltb_spec (x / 10) 10).
  { replace (x / 1000) with 0 by (Z.div_mod_to_equations; lia).
    replace (x / 100) with 0 by (Z.div_mod_to_equations; lia). reflexivity. }
  rewrite utoa_step.
  replace (x / 10 / 10) with (x / 100) by (Z.div_mod_to_equations; lia).
  destruct (Z.ltb_spec (x / 100) 10).
  { replace (x / 1000) with 0 by (Z.div_mod_to_equations; lia). reflexivity. }
  rewrite utoa_step.
  replace (x / 100 / 10) with (x / 1000) by (Z.div_mod_to_equations; lia).
  destruct (Z.ltb_spec (x / 1000) 10); [|Z.div_mod_to_equations; lia].
  replace (x / 1000 mod 10) with (x / 1000) by (Z.div_mod_to_equations; lia). reflexivity.
Qed.

Lemma digit_val_digit k : 0 <= k <= 9 -> digit_val (digit k) = Some k.
Proof.
  intros Hk.
  assert (T : forallb (fun k => match digit_val (digit k) with Some v => v =? k | None => false end)
                (range 0 10) = true) by (vm_compute; reflexivity).
  pose proof (range_forallb _ 0 10 T k ltac:(lia)) as E. cbv beta in E.
  destruct (digit_val (digit k)) as [v|]; [|discriminate].
  apply Z.eqb_eq in E. now subst.
Qed.

Lemma number_digit k s acc :
  0 <= k <= 9 -> number (String (digit k) s) acc = number s (10 * acc + k).
Proof. intros Hk. cbn [number]. now rewrite (digit_val_digit k Hk). Qed.

Lemma number_digits2 x : 0 <= x <= 99 -> number (digits2 x) 0 = Some x.
Proof.
  intros Hx. unfold digits2.
  rewrite !number_digit by (Z.div_mod_to_equations; lia).
  cbn [number]. f_equal. Z.div_mod_to_equations; lia.
Qed.

Lemma number_digits4 x : 0 <= x <= 9999 -> number (digits4 x) 0 = Some x.
Proof.
  intros Hx. unfold digits4.
  rewrite !number_digit by (Z.div_mod_to_equations; lia).
  cbn [number]. f_equal. Z.div_mod_to_equations; lia.
Qed.

Lemma valid_date_bounds y m d :
  valid_date y m d = true -> 1 <= m <= 12 /\ 1 <= d <= 31.
Proof.
  unfold valid_date. intros V.
  apply andb_true_iff in V as [V D2]. apply andb_true_iff in V as [V D1].
  apply andb_true_iff in V as [M1 M2].
  apply Z.leb_le in M1, M2, D1, D2.
  pose proof (prevLen_bounds (isLeap y) (m + 1)) as B.
  unfold daysIn in D2.
  assert (monthLen (isLeap y) m <= 31).
  { unfold monthLen. destruct (m =? 2); [destruct (isLeap y); lia|].
    destruct ((m =? 4) || (m =? 6) || (m =? 9) || (m =? 11)); lia. }
  lia.
Qed.

Lemma parseDate_digits y m d :
  valid_date y m d = true -> 0 <= y <= 9999 ->
  parseDate (digits4 y +:+ "-" +:+ digits2 m +:+ "-" +:+ digits2 d) = Some (y, m, d).
Proof.
  intros V Hy. destruct (valid_date_bounds y m d V) as (Hm & Hd).
  unfold parseDate.
  change (String.length (digits4 y +:+ "-" +:+ digits2 m +:+ "-" +:+ digits2 d)) with 10%nat.
  change (slice (digits4 y +:+ "-" +:+ digits2 m +:+ "-" +:+ digits2 d) 4 5) with "-".
  change (slice (digits4 y +:+ "-" +:+ digits2 m +:+ "-" +:+ digits2 d) 7 8) with "-".
  change (slice (digits4 y +:+ "-" +:+ digits2 m +:+ "-" +:+ digits2 d) 0 4) with (digits4 y).
  change (slice (digits4 y +:+ "-" +:+ digits2 m +:+ "-" +:+ digits2 d) 5 7) with (digits2 m).
  change (slice (digits4 y +:+ "-" +:+ digits2 m +:+ "-" +:+ digits2 d) 8 10) with (digits2 d).
  rewrite number_digits4, !number_digits2 by lia.
  simpl. now rewrite V.
Qed.

Lemma parseDate_Format t y m d :
  absDate t = (y, m, d) -> valid_date y m d = true -> 0 <= y <= 9999 ->
  parseDate (Time_Format t) = Some (y, m, d).
Proof.
  intros E V Hy. destruct (valid_date_bounds y m d V) as (Hm & Hd).
  unfold Time_Format, Time_Year, Time_Month, Time_Day. rewrite E. cbn [fst snd].
  rewrite appendInt_4, !appendInt_2 by lia.
  now apply parseDate_digits.
Qed.

(** ** The date randomizer *)

Lemma randomizeDate_spec year st :
  exists r1 st1 r2 st2,
    Intn 12 st = Ok (r1, st1) /\ 0 <= r1 < 12 /\
    Intn (prevLen (isLeap year) (r1 + 1)) st1 = Ok (r2, st2) /\
    0 <= r2 < prevLen (isLeap year) (r1 + 1) /\
    randomizeDate year st = Ok (Time_Format (date year (r1 + 1) (r2 + 1)), st2) /\
    only_rng st st2.
Proof.
  destruct (Intn_ok 12 st ltac:(lia)) as (r1 & st1 & E1 & H1 & O1 & _).
  pose proof (prevLen_bounds (isLeap year) (r1 + 1)) as B.
  destruct (Intn_ok (prevLen (isLeap year) (r1 + 1)) st1 ltac:(lia)) as (r2 & st2 & E2 & H2 & O2 & _).
  exists r1, st1, r2, st2. repeat split; try assumption; try lia.
  - unfold randomizeDate. rewrite (bind_ok _ _ _ _ _ E1).
    rewrite (day_zero_is_previous_month year (r1 + 1)) by lia.
    now rewrite (bind_ok _ _ _ _ _ E2).
  - now apply (only_rng_trans _ st1).
Qed.

(** C5.  For every year [y] of [1, 9999] and every state of the random
    source, the date randomizer returns a string that reads back as a
    date of the calendar whose year is [y]; the date is February 29 only
    if [y] is a leap year. *)
Theorem randomizeDate_valid_date_of_the_year (y : Z) (st : State) :
  1 <= y <= 9999 ->
  exists s st' m d,
    randomizeDate y st = Ok (s, st') /\
    parseDate s = Some (y, m, d) /\
    valid_date y m d = true /\
    (m = 2 -> d = 29 -> isLeap y = true).
Proof.
  intros Hy.
  destruct (randomizeDate_spec y st) as (r1 & st1 & r2 & st2 & _ & H1 & _ & H2 & E & _).
  destruct (date_in_year y (r1 + 1) (r2 + 1)) as (m & d & A & V); [lia| |].
  { rewrite (day_zero_is_previous_month y (r1 + 1)) by lia. lia. }
  exists (Time_Format (date y (r1 + 1) (r2 + 1))), st2, m, d.
  split; [exact E|]. split; [apply (parseDate_Format _ y m d A V); lia|].
  split; [exact V|]. intros -> ->.
  unfold valid_date, daysIn, monthLen in V. simpl in V.
  destruct (isLeap y); [reflexivity | discriminate].
Qed.

(** C5 for 2020, with the draws that select February and its 29th day. *)
Lemma randomizeDate_valid_date_of_the_year_witness :
  exists s st' m d,
    randomizeDate 2020 (drawing 1 28) = Ok (s, st') /\
    parseDate s = Some (2020, m, d) /\
    valid_date 2020 m d = true /\
    (m = 2 -> d = 29 -> isLeap 2020 = true).
Proof. apply (randomizeDate_valid_date_of_the_year 2020 (drawing 1 28)). lia. Defined.

(** C4 at the failing input: for 2021, when the first draw selects
    February (month [1 + 1]), the bound computed for the day is 31, the
    length of January, and not 28, the length of February; the second
    draw then selects day [30 + 1], and the date that is returned is in
    March. *)
Theorem randomizeDate_leaves_the_selected_month :
  exists st1 st2,
    Intn 12 (drawing 1 30) = Ok (1, st1) /\
    Time_Day (date 2021 (1 + 1) 0) = 31 /\
    daysIn 2021 (1 + 1) = 28 /\
    Intn 31 st1 = Ok (30, st2) /\
    randomizeDate 2021 (drawing 1 30) = Ok ("2021-03-03", st2).
Proof. eexists _, _. repeat split; reflexivity. Qed.

(** * Properties of the rest of the package *)

(** ** The randomness that scrambling consumes *)

Lemma advance_0 st : advance st 0 = st.
Proof.
  destruct st as [a u i [d c] r]. unfold advance, with_rng. simpl.
  now rewrite Nat.add_0_r.
Qed.

Lemma advance_advance st j k : advance (advance st j) k = advance st (j + k).
Proof. unfold advance, with_rng. simpl. now rewrite Nat.add_assoc. Qed.

Lemma Intn_advance n st r st' : Intn n st = Ok (r, st') -> st' = advance st 1.
Proof.
  unfold Intn. destruct (n <=? 0); [discriminate|]. intros [= _ <-].
  unfold advance. now rewrite Nat.add_1_r.
Qed.

Lemma picker_advance (set : string) (len : Z) w st st' :
  (let* i := Intn len in let* c := index set i in ret (String c "")) st = Ok (w, st') ->
  st' = advance st 1.
Proof.
  intros E. apply bind_inv in E as (i & st1 & E1 & E).
  apply bind_inv in E as (c & st2 & E2 & E).
  apply Intn_advance in E1. subst st1.
  unfold index in E2. destruct (i <? 0); [discriminate|].
  destruct (String.get (Z.to_nat i) set); [|discriminate].
  injection E2 as _ <-. now injection E as _ <-.
Qed.

Lemma scrambleByte_advance c w st st' :
  scrambleByte c st = Ok (w, st') ->
  st' = advance st (if isAlnum c then 1 else 0).
Proof.
  unfold scrambleByte, isAlnum.
  destruct (isLower c); [apply picker_advance|].
  destruct (isUpper c); [apply picker_advance|].
  destruct (isDigit c); [apply picker_advance|].
  simpl. intros [= _ <-]. now rewrite advance_0.
Qed.

Lemma scrambleLoop_advance rest : forall b out st st',
  scrambleLoop rest b st = Ok (out, st') -> st' = advance st (alnum_count rest).
Proof.
  induction rest as [|c rest IH]; intros b out st st' E; simpl in *.
  - injection E as _ <-. now rewrite advance_0.
  - apply bind_inv in E as (w & st1 & E1 & E).
    apply scrambleByte_advance in E1. apply IH in E. subst.
    apply advance_advance.
Qed.

Lemma scrambleString_run input st :
  exists out,
    scrambleString input st = Ok (out, advance st (alnum_count input)) /\
    scramble_of input out.
Proof.
  destruct (scrambleString_ok input st) as (out & st' & E & _).
  exists out. split; [|now exists st, st'].
  rewrite E. do 2 f_equal. now apply (scrambleLoop_advance input "" out).
Qed.

(** X2.  [scrambleString] consumes exactly one value of the random source for
    each ASCII letter or digit of its input, and changes nothing else of
    the state. *)
Theorem scrambleString_consumes_one_draw_per_alnum (input : string) (st : State) :
  exists out,
    scrambleString input st = Ok (out, advance st (alnum_count input)).
Proof. destruct (scrambleString_run input st) as (out & E & _). now exists out. Qed.

Lemma scrambled_no_alnum s t : scrambled s t -> alnum_count s = 0%nat -> t = s.
Proof.
  induction 1 as [|c o s t Hc Hs IH]; [reflexivity|]. simpl. intros Hz.
  unfold same_class in Hc. unfold isAlnum in Hz.
  destruct (isLower c); [simpl in Hz; lia|].
  destruct (isUpper c); [simpl in Hz; lia|].
  destruct (isDigit c); [simpl in Hz; lia|].
  subst o. f_equal. apply IH. simpl in Hz. lia.
Qed.

(** X1.  An input without any ASCII letter or digit is returned unchanged by
    [scrambleString], and the state, the random source included, is left
    exactly as it was. *)
Theorem scrambleString_without_alnum_is_identity (input : string) (st : State) :
  alnum_count input = 0%nat -> scrambleString input st = Ok (input, st).
Proof.
  intros Hz. destruct (scrambleString_ok input st) as (out & st' & E & Hs & _).
  rewrite E. f_equal. f_equal.
  - now apply scrambled_no_alnum.
  - rewrite (scrambleLoop_advance input "" out st st' E), Hz. apply advance_0.
Qed.

(** X1 on the example. *)
Lemma scrambleString_without_alnum_is_identity_witness :
  scrambleString "+-/ (.)" example_state = Ok ("+-/ (.)", example_state).
Proof.
  apply (scrambleString_without_alnum_is_identity "+-/ (.)" example_state). reflexivity.
Defined.

(** ** Scrambling a concatenation *)

Lemma scrambleLoop_builder rest : forall b st,
  scrambleLoop rest b st =
  match scrambleLoop rest "" st with
  | Ok (out, st') => Ok (b +:+ out, st')
  | Panicked p => Panicked p
  end.
Proof.
  induction rest as [|c rest IH]; intros b st; simpl.
  - unfold ret. now rewrite append_nil_r.
  - unfold bind. destruct (scrambleByte c st) as [[w st1]|p]; [|reflexivity].
    rewrite (IH (b +:+ w)), (IH ("" +:+ w)).
    destruct (scrambleLoop rest "" st1) as [[out st2]|p]; [|reflexivity].
    now rewrite append_nil_l, append_assoc.
Qed.

Lemma scrambleLoop_append a : forall b acc st,
  scrambleLoop (a +:+ b) acc st =
  match scrambleLoop a acc st with
  | Ok (out, st') => scrambleLoop b out st'
  | Panicked p => Panicked p
  end.
Proof.
  induction a as [|c a IH]; intros b acc st.
  - reflexivity.
  - rewrite append_cons. simpl. unfold bind.
    destruct (scrambleByte c st) as [[w st1]|p]; [apply IH | reflexivity].
Qed.

(** X3.  Scrambling a concatenation is scrambling its two parts one after the
    other, the second from the state the first one leaves. *)
Theorem scrambleString_append (a b : string) (st : State) :
  scrambleString (a +:+ b) st =
  match scrambleString a st with
  | Ok (oa, st1) =>
      match scrambleString b st1 with
      | Ok (ob, st2) => Ok (oa +:+ ob, st2)
      | Panicked p => Panicked p
      end
  | Panicked p => Panicked p
  end.
Proof.
  unfold scrambleString. rewrite scrambleLoop_append.
  destruct (scrambleLoop a "" st) as [[oa st1]|p]; [|reflexivity].
  apply scrambleLoop_builder.
Qed.

(** ** Every class-preserving string is an output *)

Lemma set_index_lower o :
  isLower o = true ->
  0 <= set_index o < 26 /\ String.get (Z.to_nat (set_index o)) lowercaseSet = Some o.
Proof.
  destruct o as [[] [] [] [] [] [] [] []]; intros H; vm_compute in H; try discriminate;
    vm_compute; repeat split; discriminate.
Qed.

Lemma set_index_upper o :
  isUpper o = true ->
  0 <= set_index o < 26 /\ String.get (Z.to_nat (set_index o)) uppercaseSet = Some o.
Proof.
  destruct o as [[] [] [] [] [] [] [] []]; intros H; vm_compute in H; try discriminate;
    vm_compute; repeat split; discriminate.
Qed.

Lemma set_index_digit o :
  isDigit o = true ->
  0 <= set_index o < 10 /\ String.get (Z.to_nat (set_index o)) numericSet = Some o.
Proof.
  destruct o as [[] [] [] [] [] [] [] []]; intros H; vm_compute in H; try discriminate;
    vm_compute; repeat split; discriminate.
Qed.

Lemma picker_draws (set : string) (len : Z) o st :
  0 <= draws (rng st) (cursor (rng st)) < len ->
  String.get (Z.to_nat (draws (rng st) (cursor (rng st)))) set = Some o ->
  (let* i := Intn len in let* c := index set i in ret (String c "")) st
    = Ok (String o "", advance st 1).
Proof.
  intros Hr G. unfold bind, Intn.
  destruct (Z.leb_spec len 0); [lia|].
  rewrite (Z.mod_small _ _ Hr). unfold index.
  destruct (Z.ltb_spec (draws (rng st) (cursor (rng st))) 0); [lia|].
  rewrite G. unfold ret, advance. now rewrite Nat.add_1_r.
Qed.

Lemma scrambleByte_draws c o st :
  same_class c o ->
  (isAlnum c = true -> draws (rng st) (cursor (rng st)) = set_index o) ->
  scrambleByte c st = Ok (String o "", advance st (if isAlnum c then 1 else 0)).
Proof.
  unfold same_class, scrambleByte, isAlnum. intros Hc Hd.
  destruct (isLower c) eqn:L.
  { destruct (set_index_lower o Hc) as (B & G). rewrite <- (Hd eq_refl) in B, G.
    now apply picker_draws. }
  destruct (isUpper c) eqn:U.
  { destruct (set_index_upper o Hc) as (B & G). rewrite <- (Hd eq_refl) in B, G.
    now apply picker_draws. }
  destruct (isDigit c) eqn:D.
  { destruct (set_index_digit o Hc) as (B & G). rewrite <- (Hd eq_refl) in B, G.
    now apply picker_draws. }
  subst o. simpl. now rewrite advance_0.
Qed.

Lemma scrambleLoop_draws s t :
  scrambled s t ->
  forall b st,
    (forall i, (i < length (draws_for s t))%nat ->
       draws (rng st) (cursor (rng st) + i) = nth i (draws_for s t) 0) ->
    scrambleLoop s b st = Ok (b +:+ t, advance st (alnum_count s)).
Proof.
  induction 1 as [|c o s t Hc Hs IH]; intros b st Hd.
  - simpl. unfold ret. now rewrite append_nil_r, advance_0.
  - cbn [scrambleLoop]. cbn [draws_for] in Hd.
    rewrite (bind_ok _ _ _ _ _ (scrambleByte_draws c o st Hc
      ltac:(intros A; specialize (Hd 0%nat); rewrite A in Hd; rewrite Nat.add_0_r in Hd;
            apply Hd; simpl; lia))).
    rewrite IH.
    + rewrite append_assoc, advance_advance. reflexivity.
    + intros i Hi. destruct (isAlnum c).
      * specialize (Hd (S i)). simpl in Hd. simpl.
        replace (cursor (rng st) + 1 + i)%nat with (cursor (rng st) + S i)%nat by lia.
        apply Hd. lia.
      * simpl. rewrite Nat.add_0_r. apply Hd. simpl. lia.
Qed.

(** X4.  The strings [scrambleString] can return for [s], over all random
    sources, are exactly the strings of the length of [s] that hold a byte
    of the same class at every letter or digit of [s] and the byte of [s]
    elsewhere; in particular [s] itself is a possible output. *)
Theorem scramble_outputs_are_the_class_preserving_strings (s t : string) :
  scrambled s t <-> scramble_of s t.
Proof.
  split; [|apply scramble_of_scrambled].
  intros Hs. exists (with_rng example_state (rand_of (draws_for s t))). eexists.
  unfold scrambleString. rewrite (scrambleLoop_draws s t Hs); [reflexivity|].
  intros i _. reflexivity.
Qed.

(** ** The state after an invocation *)

Lemma with_AlphaNumericMap_same st : with_AlphaNumericMap st (AlphaNumericMap st) = st.
Proof. now destruct st. Qed.

Lemma alnum_miss_state cmap input st :
  all_nonempty cmap ->
  let key := parentKeyOf cmap in
  let inner := inner_of (AlphaNumericMap st) key in
  (String.length (value_of inner input) < 1)%nat ->
  exists out,
    scramble_of input out /\
    ProcessorAlphaNumericScrambler cmap input st =
      Ok ((out, None),
          with_AlphaNumericMap (advance st (alnum_count input))
            (<[key := <[input := out]> inner]> (AlphaNumericMap st))).
Proof.
  intros Hne key inner Hl.
  rewrite (alnum_mapped_unfold cmap input st Hne). fold key inner.
  apply Nat.ltb_lt in Hl. rewrite Hl.
  destruct (scrambleString_run input (alnum_prepared st key)) as (out & R & Hs).
  exists out. split; [exact Hs|].
  rewrite (bind_ok _ _ _ _ _ R). unfold bind, store_alnum.
  change (AlphaNumericMap (advance (alnum_prepared st key) (alnum_count input)))
    with (AlphaNumericMap (alnum_prepared st key)).
  rewrite alnum_prepared_lookup. fold inner.
  destruct (alnum_prepared_frame st key) as (F1 & F2 & F3 & F4 & F5).
  unfold ret. do 2 f_equal.
  unfold with_AlphaNumericMap, advance, with_rng. cbn [AlphaNumericMap UUIDMap IBANMap rng rander].
  now rewrite F1, F2, F3, F4, F5.
Qed.

Lemma iban_frame cmap input st r st' :
  ProcessorIBANScrambler cmap input st = Ok (r, st') ->
  AlphaNumericMap st' = AlphaNumericMap st /\ UUIDMap st' = UUIDMap st /\
  rander st' = rander st.
Proof.
  intros E. destruct (IBANMap st !! input) as [v|] eqn:L.
  - rewrite (iban_hit cmap input v st L) in E. now injection E as _ <-.
  - destruct (le_lt_dec 2 (String.length input)) as [Hlen|Hlen].
    + destruct (iban_miss_long cmap input st L Hlen) as (out & s1 & s2 & _ & _ & P & _ & A & U & R).
      rewrite P in E. now injection E as _ <-.
    + now rewrite (iban_miss_short cmap input st L Hlen) in E.
Qed.

Lemma alnum_frame cmap input st r st' :
  ProcessorAlphaNumericScrambler cmap input st = Ok (r, st') ->
  UUIDMap st' = UUIDMap st /\ IBANMap st' = IBANMap st /\ rander st' = rander st /\
  exists out, r = (out, None).
Proof.
  intros E. destruct (all_nonempty_dec cmap) as [Hne|N].
  - destruct (alnum_mapped_spec cmap input st Hne)
      as [(cur & _ & _ & R)|(_ & out & st1 & _ & R & _ & U & I & Rd)];
      rewrite R in E; injection E as <- <-; repeat split; eauto.
  - destruct (alnum_unmapped_spec cmap input st N) as (out & st1 & _ & R & [rg ->]).
    rewrite R in E. injection E as <- <-. repeat split. eauto.
Qed.

Section Invocations.
Context `{UUIDPackage}.

Lemma uuid_frame cmap input st r st' :
  ProcessorRandomUUID cmap input st = Ok (r, st') ->
  AlphaNumericMap st' = AlphaNumericMap st /\ IBANMap st' = IBANMap st /\
  rng st' = rng st /\
  (forall e, snd r = Some e -> fst r = "" /\ UUIDMap st' = UUIDMap st).
Proof.
  intros E. destruct (uuid_Parse input) as [u [e|]] eqn:P.
  - rewrite (uuid_parse_fail cmap input u e st P) in E. injection E as <- <-.
    repeat split; reflexivity.
  - rewrite (uuid_parse_ok cmap input u st P) in E.
    destruct (UUIDMap st !! u) as [v|] eqn:L.
    + rewrite (randomizeUUID_hit u v st L) in E. injection E as <- <-.
      repeat split; try reflexivity; discriminate.
    + destruct (reads (rander st) (rcursor (rander st))) as [v|e] eqn:R.
      * rewrite (randomizeUUID_miss_ok u v st L R) in E. injection E as <- <-.
        repeat split; try reflexivity; discriminate.
      * rewrite (randomizeUUID_miss_err u e st L R) in E. injection E as <- <-.
        repeat split; reflexivity.
Qed.

(** X9.  An invocation that returns touches only what is its own: the
    alphanumeric scrambler leaves the UUID and IBAN maps and the entropy
    of [uuid.NewRandom] as they were, the IBAN scrambler the alphanumeric
    and UUID maps and that entropy, the UUID randomizer the alphanumeric
    and IBAN maps and the source of [math/rand]. *)
Theorem invocation_leaves_the_other_maps_alone (c : Call) (st st' : State)
    (r : string * option error) :
  invoke c st = Ok (r, st') -> untouched c st st'.
Proof.
  destruct c as [cmap input|cmap input|cmap input]; simpl; intros E.
  - destruct (alnum_frame cmap input st r st' E) as (U & I & R & _). now repeat split.
  - now apply (iban_frame cmap input st r).
  - destruct (uuid_frame cmap input st r st' E) as (A & I & R & _). now repeat split.
Qed.

(** X10.  An invocation that returns an error returns the empty string with it
    and leaves the three maps as they were; only the UUID randomizer
    returns errors. *)
Theorem error_return_is_empty_and_stores_nothing (c : Call) (st st' : State)
    (out : string) (e : error) :
  invoke c st = Ok ((out, Some e), st') ->
  out = "" /\ same_maps st st' /\ exists cmap input, c = CallRandomUUID cmap input.
Proof.
  destruct c as [cmap input|cmap input|cmap input]; simpl; intros E.
  - destruct (alnum_frame cmap input st _ st' E) as (_ & _ & _ & o & [=]).
  - destruct (iban_bound_after cmap input st _ st' E) as (o & [=] & _).
  - destruct (uuid_frame cmap input st _ st' E) as (A & I & _ & Herr).
    destruct (Herr e eq_refl) as (Eo & U). simpl in Eo. subst out.
    repeat split; eauto.
Qed.

(** X11.  The only panic of the three processors: the IBAN scrambler on an
    input of less than two bytes that is not in the IBAN map, out of
    the bounds of [input[:2]].  The alphanumeric scrambler (whose inner
    map is never nil when it is written) and the UUID randomizer never
    panic. *)
Theorem only_short_ibans_panic (c : Call) (st : State) (p : panic) :
  invoke c st = Panicked p <->
  exists cmap input,
    c = CallIBANScrambler cmap input /\ (String.length input < 2)%nat /\
    IBANMap st !! input = None /\ p = PanicSliceBounds.
Proof.
  split.
  - destruct c as [cmap input|cmap input|cmap input]; simpl; intros E.
    + exfalso. destruct (all_nonempty_dec cmap) as [Hne|N].
      * destruct (alnum_mapped_spec cmap input st Hne)
          as [(? & _ & _ & R)|(_ & ? & ? & _ & R & _)]; congruence.
      * destruct (alnum_unmapped_spec cmap input st N) as (? & ? & _ & R & _). congruence.
    + destruct (IBANMap st !! input) as [v|] eqn:L.
      { rewrite (iban_hit cmap input v st L) in E. discriminate. }
      destruct (le_lt_dec 2 (String.length input)) as [Hlen|Hlen].
      { destruct (iban_miss_long cmap input st L Hlen) as (? & ? & ? & _ & _ & P & _).
        congruence. }
      rewrite (iban_miss_short cmap input st L Hlen) in E. injection E as <-.
      now exists cmap, input.
    + exfalso. destruct (uuid_Parse input) as [u [e|]] eqn:P.
      * rewrite (uuid_parse_fail cmap input u e st P) in E. discriminate.
      * rewrite (uuid_parse_ok cmap input u st P) in E.
        destruct (randomizeUUID_returns u st) as (? & ? & R & _). congruence.
  - intros (cmap & input & -> & Hlen & L & ->). simpl. now apply iban_miss_short.
Qed.

(** X7.  In a run, after a memoizing invocation has returned an output without
    error, the same invocation again returns that output and leaves the
    whole state, maps and random sources, exactly as it finds it. *)
Theorem repeated_invocation_changes_nothing (c : Call) (st st1 : State) (out : string) :
  reachable st -> memoizing c ->
  invoke c st = Ok ((out, None), st1) -> invoke c st1 = Ok ((out, None), st1).
Proof.
  intros Hr Hm E. pose proof (reachable_wf _ Hr) as W.
  destruct (invoke_wf_kept c st _ st1 W E) as (W1 & _).
  destruct c as [cmap v|cmap input|cmap input]; simpl in *.
  - destruct (alnum_bound_after cmap v st _ st1 Hm E) as (o & inner1 & [= <-] & L1 & L2).
    assert (Ei : inner_of (AlphaNumericMap st1) (parentKeyOf cmap) = inner1)
      by (unfold inner_of; now rewrite L1).
    destruct (le_lt_dec 1 (String.length out)) as [Hl|Hl].
    + destruct (alnum_mapped_spec cmap v st1 Hm)
        as [(cur & L & _ & R)|(Hl' & _)]; rewrite Ei in *.
      * rewrite R. congruence.
      * unfold value_of in Hl'. rewrite L2 in Hl'. simpl in Hl'. lia.
    + assert (Hv : (String.length (value_of inner1 v) < 1)%nat)
        by (unfold value_of; now rewrite L2).
      rewrite <- Ei in Hv.
      destruct (alnum_miss_state cmap v st1 Hm Hv) as (out' & Hs & R).
      rewrite R, Ei.
      apply length_zero_empty in Hl. subst out.
      pose proof (scramble_of_length _ _ (proj1 W1 _ _ _ _ L1 L2)) as Lv.
      destruct v; [|discriminate].
      pose proof (scramble_of_length _ _ Hs) as Lo.
      destruct out'; [|discriminate].
      simpl. rewrite advance_0, (insert_id inner1 "" "" L2), (insert_id _ _ _ L1).
      now rewrite with_AlphaNumericMap_same.
  - destruct (iban_bound_after cmap input st _ st1 E) as (o & [= <-] & L).
    now apply iban_hit.
  - destruct (uuid_Parse input) as [u [e|]] eqn:P.
    + rewrite (uuid_parse_fail cmap input u e st P) in E. discriminate.
    + rewrite (uuid_parse_ok cmap input u st P) in E.
      rewrite (uuid_parse_ok cmap input u st1 P).
      destruct (randomizeUUID_returns u st) as (r & s & R & Hok).
      rewrite R in E. injection E as -> ->.
      destruct (Hok eq_refl) as (v & [= ->] & L). now apply randomizeUUID_hit.
Qed.

(** X8.  The UUID map is keyed by the parsed UUID, not by the text: in a run,
    once an input has been replaced without error, every input that
    parses to the same UUID is replaced by the same output in every later
    state. *)
Theorem uuid_memo_is_keyed_by_the_parsed_value
    (cmap cmap' : ColumnMapper) (input input' : string) (id : UUID)
    (st st1 st2 : State) (out : string) :
  reachable st ->
  uuid_Parse input = (id, None) -> uuid_Parse input' = (id, None) ->
  ProcessorRandomUUID cmap input st = Ok ((out, None), st1) ->
  rtc step st1 st2 ->
  ProcessorRandomUUID cmap' input' st2 = Ok ((out, None), st2).
Proof.
  intros Hr P P' E S. pose proof (reachable_wf _ Hr) as W.
  destruct (uuid_wf_kept cmap input st _ st1 W E) as (W1 & _).
  destruct (steps_wf_kept st1 st2 W1 S) as (_ & (_ & KU & _)).
  rewrite (uuid_parse_ok cmap input id st P) in E.
  rewrite (uuid_parse_ok cmap' input' id st2 P').
  destruct (randomizeUUID_returns id st) as (r & s & R & Hok).
  rewrite R in E. injection E as -> ->.
  destruct (Hok eq_refl) as (v & [= ->] & L).
  apply randomizeUUID_hit. now apply KU.
Qed.

(** X12.  In every state of a run the IBAN scrambler panics on every input of
    less than two bytes: such an input is never in the IBAN map. *)
Theorem short_iban_panics_in_every_run (cmap : ColumnMapper) (input : string) (st : State) :
  reachable st -> (String.length input < 2)%nat ->
  ProcessorIBANScrambler cmap input st = Panicked PanicSliceBounds.
Proof.
  intros Hr Hlen. destruct (reachable_wf _ Hr) as (_ & WI).
  destruct (IBANMap st !! input) as [v|] eqn:L.
  - destruct (WI _ _ L) as (H2 & _). lia.
  - now apply iban_miss_short.
Qed.

(** X5.  In a run, whatever the scope and whether the output is computed or
    read back from the map, the alphanumeric scrambler returns without
    error a string of the length of its input, with a byte of the same
    class at every letter or digit and the byte of the input elsewhere. *)
Theorem alnum_output_keeps_length_and_classes
    (cmap : ColumnMapper) (input : string) (st : State) :
  reachable st ->
  exists out st',
    ProcessorAlphaNumericScrambler cmap input st = Ok ((out, None), st') /\
    String.length out = String.length input /\
    forall i c, String.get i input = Some c ->
      exists o, String.get i out = Some o /\ same_class c o.
Proof.
  intros Hr. destruct (reachable_wf _ Hr) as (WA & _).
  assert (exists out st', ProcessorAlphaNumericScrambler cmap input st = Ok ((out, None), st')
            /\ scramble_of input out) as (out & st' & E & Hs).
  { destruct (all_nonempty_dec cmap) as [Hne|N].
    - destruct (alnum_mapped_spec cmap input st Hne)
        as [(cur & L & _ & R)|(_ & out & st1 & Hs & R & _)].
      + exists cur, st. split; [exact R|].
        apply (WA _ _ _ _ (inner_of_lookup _ _ _ _ L) L).
      + now exists out, st1.
    - destruct (alnum_unmapped_spec cmap input st N) as (out & st1 & R & E & _).
      exists out, st1. split; [exact E | now exists st, st1]. }
  exists out, st'. split; [exact E|].
  apply scramble_of_scrambled in Hs.
  split; [now apply scrambled_length | now apply scrambled_get].
Qed.

End Invocations.

(** ** More of the calendar *)

Lemma table_checked_at f leap m d :
  table_checked f leap = true -> 1 <= m <= 12 -> 1 <= d <= 31 -> f leap m d = true.
Proof.
  intros T Hm Hd. unfold table_checked in T.
  pose proof (range_forallb _ 1 12 T m ltac:(lia)) as Tm. cbv beta in Tm.
  apply (range_forallb _ 1 31 Tm). lia.
Qed.

Lemma roundtrip_table leap : table_checked roundtrip_checked leap = true.
Proof. destruct leap; vm_compute; reflexivity. Qed.

Lemma gaps_table leap : table_checked gaps_checked leap = true.
Proof. destruct leap; vm_compute; reflexivity. Qed.

Lemma monthLen_bounds leap m : 28 <= monthLen leap m <= 31.
Proof.
  unfold monthLen. destruct (m =? 2); [destruct leap; lia|].
  destruct ((m =? 4) || (m =? 6) || (m =? 9) || (m =? 11)); lia.
Qed.

Lemma valid_date_inv y m d :
  valid_date y m d = true -> 1 <= m <= 12 /\ 1 <= d <= monthLen (isLeap y) m.
Proof.
  unfold valid_date, daysIn. intros V.
  apply andb_true_iff in V as [V D2]. apply andb_true_iff in V as [V D1].
  apply andb_true_iff in V as [M1 M2]. apply Z.leb_le in M1, M2, D1, D2. lia.
Qed.

Lemma date_of_valid y m d :
  valid_date y m d = true -> absDate (date y m d) = (y, m, d).
Proof.
  intros V. destruct (valid_date_inv y m d V) as (Hm & Hd).
  pose proof (monthLen_bounds (isLeap y) m) as B.
  pose proof (table_checked_at _ _ m d (roundtrip_table (isLeap y)) Hm ltac:(lia)) as C.
  unfold roundtrip_checked in C. cbv zeta in C.
  apply orb_true_iff in C as [C|C]; [apply Z.ltb_lt in C; lia|].
  apply andb_true_iff in C as [C E]. apply andb_true_iff in C as [L U].
  apply Z.leb_le in L. apply Z.ltb_lt in U.
  unfold date. rewrite (time_Date_in_range y m d Hm).
  rewrite absDate_in_year by (unfold yearLen; destruct (isLeap y); lia).
  destruct (monthDay (isLeap y) (ydOf (isLeap y) m d)) as [Mo D].
  apply andb_true_iff in E as [E1 E2]. apply Z.eqb_eq in E1, E2. now subst.
Qed.



Lemma date_drawn y m d :
  1 <= m <= 12 -> 1 <= d <= prevLen (isLeap y) m ->
  absDate (date y m d) =
    (y, fst (monthDay (isLeap y) (ydOf (isLeap y) m d)),
        snd (monthDay (isLeap y) (ydOf (isLeap y) m d))).
Proof.
  intros Hm Hd. pose proof (prevLen_bounds (isLeap y) m) as Hb.
  destruct (month_checked (isLeap y) m Hm) as (_ & C).
  specialize (C d ltac:(lia)). unfold day_checked in C. cbv zeta in C.
  apply orb_true_iff in C as [C|C]; [apply Z.ltb_lt in C; lia|].
  apply andb_true_iff in C as [C _]. apply andb_true_iff in C as [L U].
  apply Z.leb_le in L. apply Z.ltb_lt in U.
  unfold date. rewrite (time_Date_in_range y m d Hm).
  now rewrite absDate_in_year by (unfold yearLen; destruct (isLeap y); lia).
Qed.


(** X14.  For a year of [0, 9999] the date that is returned is never a 31st
    outside January and August, and never later than the 29th in March. *)
Theorem randomizeDate_never_returns_some_dates (y : Z) (st : State) :
  0 <= y <= 9999 ->
  exists s st' m d,
    randomizeDate y st = Ok (s, st') /\
    parseDate s = Some (y, m, d) /\
    (d = 31 -> m = 1 \/ m = 8) /\
    (m = 3 -> d <= 29).
Proof.
  intros Hy.
  destruct (randomizeDate_spec y st) as (r1 & st1 & r2 & st2 & _ & H1 & _ & H2 & E & _).
  pose proof (prevLen_bounds (isLeap y) (r1 + 1)) as B.
  destruct (date_in_year y (r1 + 1) (r2 + 1)) as (m & d & A & V); [lia| |].
  { rewrite (day_zero_is_previous_month y (r1 + 1)) by lia. lia. }
  exists (Time_Format (date y (r1 + 1) (r2 + 1))), st2, m, d.
  split; [exact E|]. split; [now apply (parseDate_Format _ y m d A V)|].
  rewrite (date_drawn y (r1 + 1) (r2 + 1)) in A by lia.
  pose proof (table_checked_at _ _ (r1 + 1) (r2 + 1) (gaps_table (isLeap y))
                ltac:(lia) ltac:(lia)) as G.
  unfold gaps_checked in G.
  apply orb_true_iff in G as [G|G]; [apply Z.ltb_lt in G; lia|].
  destruct (monthDay (isLeap y) (ydOf (isLeap y) (r1 + 1) (r2 + 1))) as [Mo D].
  injection A as <- <-. lia.
Qed.

(** X14 on the example. *)
Lemma randomizeDate_never_returns_some_dates_witness :
  exists s st' m d,
    randomizeDate 2021 (drawing 1 30) = Ok (s, st') /\
    parseDate s = Some (2021, m, d) /\
    (d = 31 -> m = 1 \/ m = 8) /\
    (m = 3 -> d <= 29).
Proof. apply (randomizeDate_never_returns_some_dates 2021 (drawing 1 30)). lia. Defined.

(** X15.  In a leap year of [0, 9999], February 29 is returned for some draws. *)
Theorem randomizeDate_reaches_february_29 (y : Z) :
  isLeap y = true -> 0 <= y <= 9999 ->
  exists s st',
    randomizeDate y (drawing 1 28) = Ok (s, st') /\ parseDate s = Some (y, 2, 29).
Proof.
  intros L Hy.
  destruct (randomizeDate_spec y (drawing 1 28)) as (r1 & st1 & r2 & st2 & E1 & _ & E2 & _ & E & _).
  assert (R1 : r1 = 1) by (vm_compute in E1; congruence). subst r1.
  assert (S1 : st1 = advance (drawing 1 28) 1) by now apply Intn_advance in E1.
  subst st1. change (prevLen (isLeap y) (1 + 1)) with 31 in E2.
  assert (R2 : r2 = 28) by (vm_compute in E2; congruence). subst r2.
  eexists _, _. split; [exact E|].
  assert (V : valid_date y 2 29 = true) by (unfold valid_date, daysIn; now rewrite L).
  apply (parseDate_Format _ y 2 29); [|exact V|exact Hy].
  now apply (date_of_valid y 2 29).
Qed.

(** X15 on the example. *)
Lemma randomizeDate_reaches_february_29_witness :
  exists s st',
    randomizeDate 2024 (drawing 1 28) = Ok (s, st') /\ parseDate s = Some (2024, 2, 29).
Proof. apply (randomizeDate_reaches_february_29 2024); [reflexivity | lia]. Defined.

(** ** The date processor *)

Lemma Split_nonempty s sep : strings_Split s sep <> [].
Proof.
  destruct s as [|c s]; simpl; [discriminate|].
  destruct (decide (c = sep)); [discriminate|].
  destruct (strings_Split s sep); discriminate.
Qed.

Lemma Split_length s sep : length (strings_Split s sep) = S (count_byte sep s).
Proof.
  induction s as [|c s IH]; simpl; [reflexivity|].
  destruct (decide (c = sep)); simpl; [now rewrite IH|].
  pose proof (Split_nonempty s sep).
  destruct (strings_Split s sep); [contradiction | exact IH].
Qed.

Lemma Split_free s sep : count_byte sep s = 0%nat -> strings_Split s sep = [s].
Proof.
  induction s as [|c s IH]; simpl; [reflexivity|].
  destruct (decide (c = sep)); [discriminate|]. intros Hz. now rewrite IH.
Qed.

Lemma Split_app a b sep :
  count_byte sep a = 0%nat ->
  strings_Split (a +:+ String sep b) sep = a :: strings_Split b sep.
Proof.
  induction a as [|c a IH]; intros Hz.
  - rewrite append_nil_l. simpl. now destruct (decide (sep = sep)).
  - rewrite append_cons. simpl in *.
    destruct (decide (c = sep)); [discriminate|]. now rewrite IH.
Qed.

Lemma Split_three a b c sep :
  count_byte sep a = 0%nat -> count_byte sep b = 0%nat -> count_byte sep c = 0%nat ->
  strings_Split (a +:+ String sep (b +:+ String sep c)) sep = [a; b; c].
Proof. intros Ha Hb Hc. now rewrite (Split_app a), (Split_app b), (Split_free c). Qed.

Section DateProcessor.
Context `{FmtPackage}.

Lemma date_not_three_parts cmap input st :
  count_byte "-" input <> 2%nat ->
  ProcessorRandomDate cmap input st =
    Ok (("", Some (fmt_Errorf "Date format is not ISO-8601: %q" (strings_Split input "-"))), st).
Proof.
  intros Hc. unfold ProcessorRandomDate. rewrite Split_length.
  destruct (Nat.ltb_spec (S (count_byte "-" input)) 3),
           (Nat.ltb_spec 3 (S (count_byte "-" input))); try reflexivity. lia.
Qed.

(** X18.  An input that does not hold exactly two ['-'] is answered by the
    empty string and the format error built from its pieces, and the
    state is left as it was. *)
Theorem date_without_two_dashes_is_a_format_error
    (cmap : ColumnMapper) (input : string) (st : State) :
  count_byte "-" input <> 2%nat ->
  ProcessorRandomDate cmap input st =
    Ok (("", Some (fmt_Errorf "Date format is not ISO-8601: %q" (strings_Split input "-"))), st).
Proof. apply date_not_three_parts. Qed.

Lemma date_three_parts cmap input st :
  count_byte "-" input = 2%nat ->
  ProcessorRandomDate cmap input st =
    match strconv_Atoi (nth 0 (strings_Split input "-") "") with
    | None =>
        Ok (("", Some (fmt_Errorf "Unable to parse year from date: %q"
                         (strings_Split input "-"))), st)
    | Some year => (let* s := randomizeDate year in ret (s, None)) st
    end.
Proof.
  intros Hc. unfold ProcessorRandomDate. rewrite Split_length, Hc. simpl.
  now destruct (strconv_Atoi _).
Qed.


Lemma Atoi_digits4 y : 0 <= y <= 9999 -> strconv_Atoi (digits4 y) = Some y.
Proof.
  intros Hy. unfold strconv_Atoi.
  change (digits4 y) with (String (digit (y / 1000)) (String (digit (y / 100 mod 10))
    (String (digit (y / 10 mod 10)) (String (digit (y mod 10)) "")))) at 1.
  assert (D : forall k, 0 <= k <= 9 -> digit k <> "-"%char /\ digit k <> "+"%char).
  { intros k Hk. assert (k = 0 \/ k = 1 \/ k = 2 \/ k = 3 \/ k = 4 \/ k = 5 \/ k = 6 \/
                         k = 7 \/ k = 8 \/ k = 9) as C by lia.
    repeat destruct C as [C|C]; subst k; split; discriminate. }
  destruct (D (y / 1000) ltac:(Z.div_mod_to_equations; lia)) as (D1 & D2).
  destruct (decide (digit (y / 1000) = "-"%char)); [contradiction|].
  destruct (decide (digit (y / 1000) = "+"%char)); [contradiction|].
  fold (digits4 y). rewrite (number_digits4 y Hy).
  destruct (Z.leb_spec (- 2 ^ 63) y), (Z.leb_spec y (2 ^ 63 - 1)); simpl; try reflexivity; lia.
Qed.

Lemma count_digits4 y : 0 <= y <= 9999 -> count_byte "-" (digits4 y) = 0%nat.
Proof.
  intros Hy.
  assert (D : forall k, 0 <= k <= 9 -> digit k <> "-"%char).
  { intros k Hk. assert (k = 0 \/ k = 1 \/ k = 2 \/ k = 3 \/ k = 4 \/ k = 5 \/ k = 6 \/
                         k = 7 \/ k = 8 \/ k = 9) as C by lia.
    repeat destruct C as [C|C]; subst k; discriminate. }
  unfold digits4. cbn [count_byte].
  repeat match goal with
  | |- context [decide (digit ?k = "-"%char)] =>
      destruct (decide (digit k = "-"%char)) as [E|_];
      [exfalso; apply (D k); [Z.div_mod_to_equations; lia | exact E]|]
  end. reflexivity.
Qed.

(** X19.  For a four-digit year followed by any two pieces without ['-'] (they
    need not be a month and a day), the date processor returns, without
    error, what [randomizeDate] returns for that year: a date that reads
    back in that year. *)
Theorem date_processor_keeps_the_year_and_ignores_the_rest
    (cmap : ColumnMapper) (y : Z) (month day : string) (st : State) :
  0 <= y <= 9999 ->
  count_byte "-" month = 0%nat -> count_byte "-" day = 0%nat ->
  exists s m d,
    ProcessorRandomDate cmap (digits4 y +:+ "-" +:+ month +:+ "-" +:+ day) st
      = Ok ((s, None), advance st 2%nat) /\
    randomizeDate y st = Ok (s, advance st 2%nat) /\
    parseDate s = Some (y, m, d).
Proof.
  intros Hy Hm Hd.
  assert (Sp : strings_Split (digits4 y +:+ "-" +:+ month +:+ "-" +:+ day) "-"
               = [digits4 y; month; day]).
  { apply (Split_three (digits4 y) month day "-"); [now apply count_digits4 | assumption..]. }
  assert (Hc : count_byte "-" (digits4 y +:+ "-" +:+ month +:+ "-" +:+ day) = 2%nat).
  { pose proof (Split_length (digits4 y +:+ "-" +:+ month +:+ "-" +:+ day) "-") as L.
    rewrite Sp in L. cbn [length] in L. lia. }
  rewrite (date_three_parts cmap _ st Hc), Sp. cbn [nth].
  rewrite (Atoi_digits4 y Hy).
  destruct (randomizeDate_spec y st) as (r1 & st1 & r2 & st2 & E1 & H1 & E2 & H2 & E & _).
  pose proof (prevLen_bounds (isLeap y) (r1 + 1)) as B.
  destruct (date_in_year y (r1 + 1) (r2 + 1)) as (m & d & A & V); [lia| |].
  { rewrite (day_zero_is_previous_month y (r1 + 1)) by lia. lia. }
  apply Intn_advance in E1, E2. subst. rewrite advance_advance in E. simpl in E.
  eexists _, m, d. rewrite (bind_ok _ _ _ _ _ E).
  split; [reflexivity|]. split; [exact E|].
  now apply (parseDate_Format _ y m d A V).
Qed.

(** X20.  An input that starts with ['-'] (a negative year) is always answered
    by an error: its first piece is empty. *)
Theorem date_with_leading_dash_is_an_error
    (cmap : ColumnMapper) (rest : string) (st : State) :
  exists e, ProcessorRandomDate cmap (String "-" rest) st = Ok (("", Some e), st).
Proof.
  destruct (Nat.eq_dec (count_byte "-" (String "-" rest)) 2%nat) as [Hc|Hc].
  - rewrite (date_three_parts cmap _ st Hc). simpl.
    destruct (decide ("-"%char = "-"%char)); [|contradiction]. simpl. eauto.
  - eexists. now apply date_not_three_parts.
Qed.

End DateProcessor.

(** X18 on the example. *)
Lemma date_without_two_dashes_is_a_format_error_witness :
  @ProcessorRandomDate plain_fmt users_ssn "2020/08/28" example_state =
    Ok (("", Some (errorString "Date format is not ISO-8601: %q")), example_state).
Proof.
  apply (@date_without_two_dashes_is_a_format_error plain_fmt users_ssn "2020/08/28"
           example_state).
  simpl. lia.
Defined.

(** X19 on the example. *)
Lemma date_processor_keeps_the_year_and_ignores_the_rest_witness :
  exists s m d,
    @ProcessorRandomDate plain_fmt users_ssn "2018-08-xx" example_state
      = Ok ((s, None), advance example_state 2%nat) /\
    randomizeDate 2018 example_state = Ok (s, advance example_state 2%nat) /\
    parseDate s = Some (2018, m, d).
Proof.
  apply (@date_processor_keeps_the_year_and_ignores_the_rest plain_fmt users_ssn 2018
           "08" "xx" example_state); [lia | reflexivity | reflexivity].
Defined.

(** ** The country code processor *)

Lemma CountryCodes_length : length CountryCodes = 249%nat.
Proof. reflexivity. Qed.

Lemma CountryCodes_two_uppercase cc :
  In cc CountryCodes -> two_uppercase (Code cc) = true.
Proof.
  assert (T : forallb (fun cc => two_uppercase (Code cc)) CountryCodes = true)
    by (vm_compute; reflexivity).
  rewrite forallb_forall in T. apply T.
Qed.

Lemma country_at_draw st :
  exists cc,
    CountryCodes !! Z.to_nat (draws (rng st) (cursor (rng st)) mod 249) = Some cc /\
    ProcessorRandomCountryCode users_ssn "" st = Ok ((Code cc, None), advance st 1).
Proof.
  pose proof (Z.mod_pos_bound (draws (rng st) (cursor (rng st))) 249 ltac:(lia)) as B.
  destruct (CountryCodes !! Z.to_nat (draws (rng st) (cursor (rng st)) mod 249)) as [cc|] eqn:L.
  - exists cc. split; [reflexivity|].
    unfold ProcessorRandomCountryCode, bind, Int63n. rewrite CountryCodes_length.
    change (Z.of_nat 249 <=? 0) with false. cbv iota.
    change (Z.of_nat 249) with 249. unfold countryAt.
    destruct (Z.ltb_spec (draws (rng st) (cursor (rng st)) mod 249) 0); [lia|].
    rewrite L. unfold ret, advance. now rewrite Nat.add_1_r.
  - apply lookup_ge_None in L. rewrite CountryCodes_length in L. lia.
Qed.

(** X21.  The country code processor never panics and returns no error; it
    consumes one value of the random source and returns the code of an
    entry of the table, two uppercase letters; and every code of the
    table is returned for some draw. *)
Theorem country_code_outputs_are_the_codes_of_the_table :
  (forall cmap input st,
     exists code,
       ProcessorRandomCountryCode cmap input st = Ok ((code, None), advance st 1) /\
       In code (map Code CountryCodes) /\ two_uppercase code = true) /\
  (forall cmap input code,
     In code (map Code CountryCodes) ->
     exists st st', ProcessorRandomCountryCode cmap input st = Ok ((code, None), st')).
Proof.
  split.
  - intros cmap input st. destruct (country_at_draw st) as (cc & L & E).
    exists (Code cc). split; [exact E|].
    assert (I : In cc CountryCodes) by (apply list_elem_of_In; eapply list_elem_of_lookup_2; eassumption).
    split; [now apply in_map | now apply CountryCodes_two_uppercase].
  - intros cmap input code I. apply in_map_iff in I as (cc & <- & I).
    apply list_elem_of_In, list_elem_of_lookup in I as (i & L).
    pose proof (lookup_lt_Some _ _ _ L) as Hi. rewrite CountryCodes_length in Hi.
    destruct (country_at_draw (with_rng example_state (mkRand (fun _ => Z.of_nat i) 0)))
      as (cc' & L' & E).
    cbn [rng draws cursor with_rng] in L'.
    rewrite Z.mod_small, Nat2Z.id in L' by lia.
    rewrite L in L'. injection L' as <-. eexists _, _. exact E.
Qed.

(** ** The scrub processor *)

Lemma Repeat_star_S n :
  strings_Repeat "*" (S n) = String "*" (strings_Repeat "*" n).
Proof. reflexivity. Qed.

Lemma Repeat_star_length n : String.length (strings_Repeat "*" n) = n.
Proof. induction n as [|n IH]; [reflexivity | rewrite Repeat_star_S; simpl; now rewrite IH]. Qed.

Lemma Repeat_star_get n i c :
  String.get i (strings_Repeat "*" n) = Some c -> c = "*"%char.
Proof.
  revert i. induction n as [|n IH]; intros i G; [destruct i; discriminate|].
  rewrite Repeat_star_S in G.
  destruct i as [|i]; [now injection G | exact (IH i G)].
Qed.

Lemma Repeat_star_count n : utf8_RuneCountInString (strings_Repeat "*" n) = n.
Proof.
  unfold utf8_RuneCountInString.
  induction n as [|n IH]; [reflexivity|].
  rewrite Repeat_star_S. cbn [runeCountLoop].
  change (runeStep "*" (strings_Repeat "*" n) - 1)%nat with 0%nat. now rewrite IH.
Qed.

Lemma runeStep_bounds c rest : (1 <= runeStep c rest <= 4)%nat.
Proof.
  unfold runeStep.
  destruct (byte_val c <? 128)%N eqn:A; [lia|].
  destruct (utf8_first (byte_val c) =? utf8_xx)%N eqn:X; [lia|].
  assert (S : (2 <= N.to_nat (N.land (utf8_first (byte_val c)) 7) <= 4)%nat).
  { revert X. unfold utf8_first. rewrite A.
    repeat match goal with |- context [if ?b then _ else _] => destruct b end;
      vm_compute; intros; try discriminate; lia. }
  repeat match goal with |- context [if ?b then _ else _] => destruct b end; lia.
Qed.

Lemma runeCountLoop_le s : forall skip, (runeCountLoop s skip <= String.length s)%nat.
Proof.
  induction s as [|c s IH]; intros skip; simpl; [lia|].
  destruct skip; [specialize (IH (runeStep c s - 1)%nat) | specialize (IH skip)]; lia.
Qed.

Lemma runeCountLoop_ge s : forall skip,
  (String.length s <= skip + 4 * runeCountLoop s skip)%nat.
Proof.
  induction s as [|c s IH]; intros skip; simpl; [lia|].
  destruct skip as [|k].
  - pose proof (runeStep_bounds c s). specialize (IH (runeStep c s - 1)%nat). lia.
  - specialize (IH k). lia.
Qed.

Lemma runeCount_ascii s : isASCII s = true -> runeCountLoop s 0 = String.length s.
Proof.
  induction s as [|c s IH]; simpl; [reflexivity|]. intros A.
  apply andb_true_iff in A as [A1 A2]. unfold runeStep. rewrite A1. simpl.
  now rewrite IH.
Qed.

(** X22.  [scrubString] returns asterisks only, as many as
    [utf8.RuneCountInString] counts: at most one per byte of the input,
    at least one per four bytes, and exactly one per byte when the input
    is ASCII. *)
Theorem scrubString_is_asterisks_one_per_rune (input : string) :
  String.length (scrubString input) = utf8_RuneCountInString input /\
  (forall i c, String.get i (scrubString input) = Some c -> c = "*"%char) /\
  (String.length (scrubString input) <= String.length input)%nat /\
  (String.length input <= 4 * String.length (scrubString input))%nat /\
  (isASCII input = true -> String.length (scrubString input) = String.length input).
Proof.
  unfold scrubString. rewrite Repeat_star_length. split; [reflexivity|].
  split; [intros i c; apply Repeat_star_get|].
  split; [apply runeCountLoop_le|].
  split; [apply (runeCountLoop_ge input 0)|].
  apply runeCount_ascii.
Qed.

(** X24.  Scrubbing a scrubbed string changes nothing. *)
Theorem scrubString_idempotent (input : string) :
  scrubString (scrubString input) = scrubString input.
Proof. unfold scrubString. now rewrite Repeat_star_count. Qed.

(** ** Well-formed UTF-8 is counted by code points *)

Lemma byte_val_of n : (n < 256)%N -> byte_val (ascii_of_N n) = n.
Proof. intros Hn. unfold byte_val. now apply N_ascii_embedding. Qed.

Ltac arith := zify; Z.to_euclidean_division_equations; lia.

Lemma utf8_first_cases b :
  (128 <= b <= 244)%N -> (194 <= b)%N ->
  utf8_first b =
    (if b <? 224 then utf8_s1 else if b =? 224 then utf8_s2
     else if b <? 237 then utf8_s3 else if b =? 237 then utf8_s4
     else if b <? 240 then utf8_s3 else if b =? 240 then utf8_s5
     else if b <? 244 then utf8_s6 else utf8_s7)%N.
Proof.
  intros H1 H2. unfold utf8_first.
  destruct (N.ltb_spec b 128); [arith|]. destruct (N.ltb_spec b 194); [arith|].
  destruct (N.ltb_spec b 224); [reflexivity|]. destruct (N.eqb_spec b 224); [reflexivity|].
  destruct (N.ltb_spec b 237); [reflexivity|]. destruct (N.eqb_spec b 237); [reflexivity|].
  destruct (N.ltb_spec b 240); [reflexivity|]. destruct (N.eqb_spec b 240); [reflexivity|].
  destruct (N.ltb_spec b 244); [reflexivity|]. destruct (N.eqb_spec b 244); [reflexivity | arith].
Qed.

(** The step at a first byte whose entry of [first] is [x], of size
    [size] and accepted range [[lo, hi]]. *)
Lemma runeStep_at c rest x size lo hi :
  (128 <= byte_val c)%N -> utf8_first (byte_val c) = x ->
  (x =? utf8_xx)%N = false ->
  N.to_nat (N.land x 7) = size -> utf8_acceptRanges (N.shiftr x 4) = (lo, hi) ->
  runeStep c rest =
    if (S (String.length rest) <? size)%nat then 1%nat
    else if ((byteAfter rest 1 <? lo) || (hi <? byteAfter rest 1))%N then 1%nat
    else if (size =? 2)%nat then size
    else if ((byteAfter rest 2 <? 128) || (191 <? byteAfter rest 2))%N then 1%nat
    else if (size =? 3)%nat then size
    else if ((byteAfter rest 3 <? 128) || (191 <? byteAfter rest 3))%N then 1%nat
    else size.
Proof.
  intros H0 F X S A. unfold runeStep.
  destruct (N.ltb_spec (byte_val c) 128); [arith|].
  rewrite F, X. cbv zeta. rewrite S, A. reflexivity.
Qed.

Lemma runeStep_2 c c1 s :
  (194 <= byte_val c < 224)%N -> (128 <= byte_val c1 <= 191)%N ->
  runeStep c (String c1 s) = 2%nat.
Proof.
  intros H0 H1.
  assert (F : utf8_first (byte_val c) = utf8_s1).
  { rewrite utf8_first_cases by arith. destruct (N.ltb_spec (byte_val c) 224); [reflexivity|arith]. }
  rewrite (runeStep_at c _ utf8_s1 2 128 191) by (try reflexivity; try assumption; arith).
  change (byteAfter (String c1 s) 1) with (byte_val c1).
  cbn [String.length Nat.ltb Nat.leb].
  destruct (N.ltb_spec (byte_val c1) 128); [arith|].
  destruct (N.ltb_spec 191 (byte_val c1)); [arith|]. reflexivity.
Qed.

Lemma runeStep_3_at c c1 c2 s x lo hi :
  (128 <= byte_val c)%N -> utf8_first (byte_val c) = x -> (x =? utf8_xx)%N = false ->
  N.to_nat (N.land x 7) = 3%nat -> utf8_acceptRanges (N.shiftr x 4) = (lo, hi) ->
  (lo <= byte_val c1 <= hi)%N -> (128 <= byte_val c2 <= 191)%N ->
  runeStep c (String c1 (String c2 s)) = 3%nat.
Proof.
  intros H0 F X S A H1 H2.
  rewrite (runeStep_at c _ x 3 lo hi H0 F X S A).
  change (byteAfter (String c1 (String c2 s)) 1) with (byte_val c1).
  change (byteAfter (String c1 (String c2 s)) 2) with (byte_val c2).
  cbn [String.length Nat.ltb Nat.leb Nat.eqb].
  destruct (N.ltb_spec (byte_val c1) lo); [arith|].
  destruct (N.ltb_spec hi (byte_val c1)); [arith|].
  destruct (N.ltb_spec (byte_val c2) 128); [arith|].
  destruct (N.ltb_spec 191 (byte_val c2)); [arith|]. reflexivity.
Qed.

Lemma runeStep_4_at c c1 c2 c3 s x lo hi :
  (128 <= byte_val c)%N -> utf8_first (byte_val c) = x -> (x =? utf8_xx)%N = false ->
  N.to_nat (N.land x 7) = 4%nat -> utf8_acceptRanges (N.shiftr x 4) = (lo, hi) ->
  (lo <= byte_val c1 <= hi)%N -> (128 <= byte_val c2 <= 191)%N ->
  (128 <= byte_val c3 <= 191)%N ->
  runeStep c (String c1 (String c2 (String c3 s))) = 4%nat.
Proof.
  intros H0 F X S A H1 H2 H3.
  rewrite (runeStep_at c _ x 4 lo hi H0 F X S A).
  change (byteAfter (String c1 (String c2 (String c3 s))) 1) with (byte_val c1).
  change (byteAfter (String c1 (String c2 (String c3 s))) 2) with (byte_val c2).
  change (byteAfter (String c1 (String c2 (String c3 s))) 3) with (byte_val c3).
  cbn [String.length Nat.ltb Nat.leb Nat.eqb].
  destruct (N.ltb_spec (byte_val c1) lo); [arith|].
  destruct (N.ltb_spec hi (byte_val c1)); [arith|].
  destruct (N.ltb_spec (byte_val c2) 128); [arith|].
  destruct (N.ltb_spec 191 (byte_val c2)); [arith|].
  destruct (N.ltb_spec (byte_val c3) 128); [arith|].
  destruct (N.ltb_spec 191 (byte_val c3)); [arith|]. reflexivity.
Qed.

Lemma runeStep_3 c c1 c2 s :
  (224 <= byte_val c < 240)%N ->
  (128 <= byte_val c1 <= 191)%N ->
  (byte_val c = 224 -> 160 <= byte_val c1)%N ->
  (byte_val c = 237 -> byte_val c1 <= 159)%N ->
  (128 <= byte_val c2 <= 191)%N ->
  runeStep c (String c1 (String c2 s)) = 3%nat.
Proof.
  intros H0 H1 Ha Hb H2.
  pose proof (utf8_first_cases (byte_val c) ltac:(arith) ltac:(arith)) as F.
  destruct (N.ltb_spec (byte_val c) 224); [arith|].
  destruct (N.eqb_spec (byte_val c) 224).
  { apply (runeStep_3_at c c1 c2 s utf8_s2 160 191); try reflexivity; try assumption; arith. }
  destruct (N.ltb_spec (byte_val c) 237).
  { apply (runeStep_3_at c c1 c2 s utf8_s3 128 191); try reflexivity; try assumption; arith. }
  destruct (N.eqb_spec (byte_val c) 237).
  { apply (runeStep_3_at c c1 c2 s utf8_s4 128 159); try reflexivity; try assumption; arith. }
  destruct (N.ltb_spec (byte_val c) 240); [|arith].
  apply (runeStep_3_at c c1 c2 s utf8_s3 128 191); try reflexivity; try assumption; arith.
Qed.

Lemma runeStep_4 c c1 c2 c3 s :
  (240 <= byte_val c <= 244)%N ->
  (128 <= byte_val c1 <= 191)%N ->
  (byte_val c = 240 -> 144 <= byte_val c1)%N ->
  (byte_val c = 244 -> byte_val c1 <= 143)%N ->
  (128 <= byte_val c2 <= 191)%N ->
  (128 <= byte_val c3 <= 191)%N ->
  runeStep c (String c1 (String c2 (String c3 s))) = 4%nat.
Proof.
  intros H0 H1 Ha Hb H2 H3.
  pose proof (utf8_first_cases (byte_val c) ltac:(arith) ltac:(arith)) as F.
  destruct (N.ltb_spec (byte_val c) 224); [arith|].
  destruct (N.eqb_spec (byte_val c) 224); [arith|].
  destruct (N.ltb_spec (byte_val c) 237); [arith|].
  destruct (N.eqb_spec (byte_val c) 237); [arith|].
  destruct (N.ltb_spec (byte_val c) 240); [arith|].
  destruct (N.eqb_spec (byte_val c) 240).
  { apply (runeStep_4_at c c1 c2 c3 s utf8_s5 144 191); try reflexivity; try assumption; arith. }
  destruct (N.ltb_spec (byte_val c) 244).
  { apply (runeStep_4_at c c1 c2 c3 s utf8_s6 128 191); try reflexivity; try assumption; arith. }
  apply (runeStep_4_at c c1 c2 c3 s utf8_s7 128 143); try reflexivity; try assumption; arith.
Qed.

Lemma runeCount_encode r s :
  isScalar r = true ->
  runeCountLoop (utf8_encode r +:+ s) 0 = S (runeCountLoop s 0).
Proof.
  intros Hs. unfold isScalar in Hs.
  assert (Hr : (r < 55296 \/ 57343 < r <= 1114111)%N).
  { apply orb_true_iff in Hs as [Hs|Hs]; [left; now apply N.ltb_lt|right].
    apply andb_true_iff in Hs as [A B]. apply N.ltb_lt in A. apply N.leb_le in B. lia. }
  clear Hs. unfold utf8_encode.
  destruct (N.ltb_spec r 128) as [H1|H1].
  { rewrite append_cons, append_nil_l. cbn [runeCountLoop].
    unfold runeStep. rewrite byte_val_of by arith.
    destruct (N.ltb_spec r 128); [reflexivity | arith]. }
  destruct (N.ltb_spec r 2048) as [H2|H2].
  { rewrite !append_cons, append_nil_l. cbn [runeCountLoop].
    rewrite runeStep_2; [reflexivity | rewrite byte_val_of by arith; arith..]. }
  destruct (N.ltb_spec r 65536) as [H3|H3].
  { rewrite !append_cons, append_nil_l. cbn [runeCountLoop].
    rewrite runeStep_3; [reflexivity | rewrite ?byte_val_of by arith; arith..]. }
  rewrite !append_cons, append_nil_l. cbn [runeCountLoop].
  rewrite runeStep_4; [reflexivity | rewrite ?byte_val_of by arith; arith..].
Qed.

Lemma runeCount_encode_all rs :
  forallb isScalar rs = true ->
  utf8_RuneCountInString (utf8_encode_all rs) = length rs.
Proof.
  unfold utf8_RuneCountInString.
  induction rs as [|r rs IH]; [reflexivity|]. cbn [forallb utf8_encode_all length].
  intros A. apply andb_true_iff in A as [A1 A2].
  now rewrite (runeCount_encode r _ A1), IH.
Qed.

(** X23.  On the UTF-8 encoding of a sequence of Unicode scalar values,
    [scrubString] returns one asterisk per code point, however many
    bytes each one takes. *)
Theorem scrubString_counts_code_points (rs : list N) :
  forallb isScalar rs = true ->
  scrubString (utf8_encode_all rs) = strings_Repeat "*" (length rs).
Proof. intros A. unfold scrubString. now rewrite runeCount_encode_all. Qed.

(** X23 on the example. *)
Lemma scrubString_counts_code_points_witness :
  scrubString (utf8_encode_all [233; 8364; 128512]%N) = "***".
Proof. apply (scrubString_counts_code_points [233; 8364; 128512]%N). reflexivity. Defined.

(** ** The shape of an anonymized IBAN *)

Lemma substring_split (s : string) : forall n,
  (n <= String.length s)%nat ->
  s = String.substring 0 n s +:+ String.substring n (String.length s - n) s.
Proof.
  induction s as [|c s IH]; intros n Hn.
  - destruct n; [reflexivity | simpl in Hn; lia].
  - destruct n as [|n].
    + simpl. rewrite append_nil_l. f_equal.
      clear. induction s as [|d s IH]; [reflexivity | simpl; now rewrite <- IH].
    + simpl in Hn. cbn [String.substring String.length Nat.sub].
      rewrite append_cons. f_equal. apply IH. lia.
Qed.

Lemma get_append_l (a b : string) i :
  (i < String.length a)%nat -> String.get i (a +:+ b) = String.get i a.
Proof.
  revert i. induction a as [|c a IH]; intros i Hi; [simpl in Hi; lia|].
  rewrite append_cons. destruct i as [|i]; [reflexivity|]. simpl in *. apply IH. lia.
Qed.

Lemma get_append_r (a b : string) i :
  String.get (String.length a + i) (a +:+ b) = String.get i b.
Proof. induction a as [|c a IH]; [reflexivity | rewrite append_cons; exact IH]. Qed.

Section IBANShape.
Context `{UUIDPackage}.

(** X6.  In a run and for an input of at least two bytes, the IBAN scrambler
    returns without error a string of the length of the input whose first
    two bytes are those of the input and whose every later byte is of the
    class of the byte of the input at its position. *)
Theorem iban_output_keeps_length_prefix_and_classes
    (cmap : ColumnMapper) (input : string) (st : State) :
  reachable st -> (2 <= String.length input)%nat ->
  exists out st',
    ProcessorIBANScrambler cmap input st = Ok ((out, None), st') /\
    String.length out = String.length input /\
    forall i c, String.get i input = Some c ->
      exists o, String.get i out = Some o /\
                if (i <? 2)%nat then o = c else same_class c o.
Proof.
  intros Hr Hlen. pose proof (reachable_wf _ Hr) as W.
  destruct (iban_returns cmap input st Hlen) as (out & st' & E).
  exists out, st'. split; [exact E|].
  destruct (iban_bound_after cmap input st _ st' E) as (out' & [= <-] & L).
  destruct (iban_wf_kept cmap input st _ st' W E) as ((_ & WI) & _).
  destruct (WI _ _ L) as (_ & rest & Hs & ->).
  apply scramble_of_scrambled in Hs.
  pose proof (head_length input Hlen) as H2.
  pose proof (scrambled_length _ _ Hs) as Lr.
  pose proof (substring_split input 2 Hlen) as Sp.
  change (String.substring 0 2 input) with (slice input 0 2) in Sp.
  change (String.substring 2 (String.length input - 2) input)
    with (slice input 2 (String.length input)) in Sp.
  split.
  - rewrite append_length, Lr, H2. unfold slice.
    rewrite substring_length by lia. lia.
  - intros i c G. destruct (Nat.ltb_spec i 2) as [Hi|Hi].
    + exists c. split; [|reflexivity].
      rewrite get_append_l by lia. rewrite Sp, get_append_l in G by lia. exact G.
    + rewrite Sp in G.
      replace i with (String.length (slice input 0 2) + (i - 2))%nat in G |- * by lia.
      rewrite get_append_r in G. rewrite get_append_r.
      exact (scrambled_get _ _ Hs _ _ G).
Qed.

End IBANShape.

(** X6 on the example. *)
Lemma iban_output_keeps_length_prefix_and_classes_witness :
  exists out st',
    ProcessorIBANScrambler users_ssn example_iban example_state = Ok ((out, None), st') /\
    String.length out = String.length example_iban /\
    forall i c, String.get i example_iban = Some c ->
      exists o, String.get i out = Some o /\
                if (i <? 2)%nat then o = c else same_class c o.
Proof.
  apply (@iban_output_keeps_length_prefix_and_classes google_uuid users_ssn example_iban
           example_state).
  - exists example_rng, example_rander. apply rtc_refl.
  - simpl. lia.
Defined.

(** ** The properties of the invocations, on the example *)

(** X5 on the example. *)
Lemma alnum_output_keeps_length_and_classes_witness :
  exists out st',
    ProcessorAlphaNumericScrambler users_ssn "ABC-1a2bC" example_state = Ok ((out, None), st') /\
    String.length out = 9%nat /\
    forall i c, String.get i "ABC-1a2bC" = Some c ->
      exists o, String.get i out = Some o /\ same_class c o.
Proof.
  apply (@alnum_output_keeps_length_and_classes google_uuid users_ssn "ABC-1a2bC" example_state).
  exists example_rng, example_rander. apply rtc_refl.
Defined.

(** X7 on the example. *)
Lemma repeated_invocation_changes_nothing_witness :
  @invoke google_uuid (CallIBANScrambler users_ssn example_iban) example_state1
    = Ok (("DE30741852963074185296", None), example_state1).
Proof.
  apply (@repeated_invocation_changes_nothing google_uuid
           (CallIBANScrambler users_ssn example_iban) example_state example_state1).
  - exists example_rng, example_rander. apply rtc_refl.
  - exact I.
  - vm_compute. reflexivity.
Defined.

(** X9 on the example. *)
Lemma invocation_leaves_the_other_maps_alone_witness :
  untouched (CallIBANScrambler users_ssn example_iban) example_state example_state1.
Proof.
  apply (@invocation_leaves_the_other_maps_alone google_uuid
           (CallIBANScrambler users_ssn example_iban) example_state example_state1
           ("DE30741852963074185296", None)).
  vm_compute. reflexivity.
Defined.

(** X10 on the example. *)
Lemma error_return_is_empty_and_stores_nothing_witness :
  "" = "" /\ same_maps example_state example_state /\
  exists cmap input, CallRandomUUID users_ssn "not-a-uuid" = CallRandomUUID cmap input.
Proof.
  apply (@error_return_is_empty_and_stores_nothing google_uuid
           (CallRandomUUID users_ssn "not-a-uuid") example_state example_state ""
           (errorString "invalid UUID length")).
  reflexivity.
Defined.

(** X12 on the example. *)
Lemma short_iban_panics_in_every_run_witness :
  ProcessorIBANScrambler users_ssn "D" example_state1 = Panicked PanicSliceBounds.
Proof.
  apply (@short_iban_panics_in_every_run google_uuid users_ssn "D" example_state1).
  - exists example_rng, example_rander. apply rtc_once.
    apply (@step_invoke google_uuid (CallIBANScrambler users_ssn example_iban)
             example_state ("DE30741852963074185296", None) example_state1).
    vm_compute. reflexivity.
  - simpl. lia.
Defined.

(** X8 on the example. *)
Lemma uuid_memo_is_keyed_by_the_parsed_value_witness :
  @ProcessorRandomUUID google_uuid users_ssn example_urn
     (state_after (CallRandomUUID users_ssn example_uuid) example_state3)
  = Ok (("12345678-9abc-4def-8123-456789abcdef", None),
        state_after (CallRandomUUID users_ssn example_uuid) example_state3).
Proof.
  apply (@uuid_memo_is_keyed_by_the_parsed_value google_uuid users_ssn users_ssn
           example_uuid example_urn
           [107; 167; 184; 16; 157; 173; 17; 209; 128; 180; 0; 192; 79; 212; 48; 200]%N
           example_state3
           (state_after (CallRandomUUID users_ssn example_uuid) example_state3)
           (state_after (CallRandomUUID users_ssn example_uuid) example_state3)).
  - exists example_rng, (mkRander (reads example_rander) 1). apply rtc_refl.
  - reflexivity.
  - reflexivity.
  - vm_compute. reflexivity.
  - apply rtc_refl.
Defined.
